(** * Hybrid investment policy analyzer: the month-by-month projection

    A shallow embedding of [calculate_policy_outcomes] from [Policy_app.py]
    and the properties of the monthly records it returns.

    Numbers.  Ages and durations in years are Python [int]s and are modelled
    by [Z]; [//] and [%] with the positive divisor 12 are [Z.div] and
    [Z.modulo].  Monetary amounts and rates are Python floats.  The function
    is embedded twice, block by block in the same way:
    - on exact rationals [Q], compared with [Qle_bool]: the model in which
      the order, sign, phase and copy properties of the run are proved, and
      the equalities between amounts that are the code's own expression;
    - on binary64 floats (module [Binary64]), each operation rounded as the
      program rounds it: the model for the statements that hold or fail
      because of the rounding, such as the value of a running sum. *)

From Stdlib Require Import ZArith QArith Bool List Lia Lqa.
Import ListNotations.

Local Open Scope Q_scope.

(** ** Parameters of one run (the arguments of [calculate_policy_outcomes]) *)

Record Params : Type := mkParams {
  current_age : Z;
  monthly_survival_benefit : Q;
  policy_end_age : Z;
  sip_duration_years : Z;
  sip_annual_return_rate : Q;
  corpus_annual_growth_rate : Q;
  swp_initial_annual_withdrawal_rate : Q;
  swp_annual_payout_growth_rate : Q
}.

(** ** Derived parameters *)

Definition policy_duration_years (p : Params) : Z :=
  (policy_end_age p - current_age p)%Z.

Definition total_months (p : Params) : Z :=
  (policy_duration_years p * 12)%Z.

Definition sip_duration_months (p : Params) : Z :=
  (sip_duration_years p * 12)%Z.

Definition monthly_sip_return_rate (p : Params) : Q :=
  sip_annual_return_rate p / 12.

Definition monthly_corpus_growth_rate (p : Params) : Q :=
  corpus_annual_growth_rate p / 12.

(** ** The variables carried from one month to the next *)

Record LoopState : Type := mkLoopState {
  primary_cumulative_income : Q;
  hybrid_sip_corpus : Q;
  hybrid_swp_corpus : Q;
  hybrid_cumulative_total_income : Q;
  scheduled_last_year_swp_monthly_payout : Q;
  swp_year_counter : Z;
  current_target_swp_monthly_payout : Q
}.

Definition initial_state : LoopState :=
  {| primary_cumulative_income := 0;
     hybrid_sip_corpus := 0;
     hybrid_swp_corpus := 0;
     hybrid_cumulative_total_income := 0;
     scheduled_last_year_swp_monthly_payout := 0;
     swp_year_counter := 0%Z;
     current_target_swp_monthly_payout := 0 |}.

(** ** One row of the returned frame (the dict appended each month) *)

Record MonthlyRecord : Type := mkMonthlyRecord {
  MonthIndex : Z;
  Age : Q;
  PolicyYear : Z;
  MonthInPolicyYear : Z;
  Primary_MonthlyIncome : Q;
  Primary_CumulativeIncome : Q;
  Hybrid_SurvivalBenefitReceived : Q;
  Hybrid_SIPInvestment : Q;
  Hybrid_SIPCorpus_EOM : Q;
  Hybrid_SWPPayout : Q;
  Hybrid_SWPCorpus_EOM : Q;
  Hybrid_TotalMonthlyIncome : Q;
  Hybrid_CumulativeTotalIncome : Q;
  SWP_Year : Z;
  Target_SWP_Payout : Q
}.

(** ** Comparisons of amounts *)

(** [x < y] on amounts, as a boolean. *)
Definition Qlt_bool (x y : Q) : bool := negb (Qle_bool y x).

(** ** The body of the monthly loop, block by block *)

(** SIP phase, the corpus update: interest on the corpus is credited, then
    this month's investment is added. *)
Definition sip_phase (p : Params) (s : LoopState) : LoopState :=
  let current_sip_investment_this_month := monthly_survival_benefit p in
  let interest_on_sip := hybrid_sip_corpus s * monthly_sip_return_rate p in
  let hybrid_sip_corpus1 := hybrid_sip_corpus s + interest_on_sip in
  let hybrid_sip_corpus2 := hybrid_sip_corpus1 + current_sip_investment_this_month in
  {| primary_cumulative_income := primary_cumulative_income s;
     hybrid_sip_corpus := hybrid_sip_corpus2;
     hybrid_swp_corpus := hybrid_swp_corpus s;
     hybrid_cumulative_total_income := hybrid_cumulative_total_income s;
     scheduled_last_year_swp_monthly_payout := scheduled_last_year_swp_monthly_payout s;
     swp_year_counter := swp_year_counter s;
     current_target_swp_monthly_payout := current_target_swp_monthly_payout s |}.

(** SWP phase, first month: the SIP corpus is transferred, the year counter
    is set to 1 and the first year's monthly payout is scheduled. *)
Definition swp_first_month (p : Params) (s : LoopState) : LoopState :=
  let hybrid_swp_corpus' := hybrid_sip_corpus s in
  let annual_swp_amount_year1 :=
    hybrid_swp_corpus' * swp_initial_annual_withdrawal_rate p in
  let current_target_swp_monthly_payout' := annual_swp_amount_year1 / 12 in
  {| primary_cumulative_income := primary_cumulative_income s;
     hybrid_sip_corpus := hybrid_sip_corpus s;
     hybrid_swp_corpus := hybrid_swp_corpus';
     hybrid_cumulative_total_income := hybrid_cumulative_total_income s;
     scheduled_last_year_swp_monthly_payout := current_target_swp_monthly_payout';
     swp_year_counter := 1%Z;
     current_target_swp_monthly_payout := current_target_swp_monthly_payout' |}.

(** SWP phase, a later anniversary: the year counter is incremented and the
    scheduled payout grows by the annual payout growth rate. *)
Definition swp_escalation (p : Params) (s : LoopState) : LoopState :=
  let current_target_swp_monthly_payout' :=
    scheduled_last_year_swp_monthly_payout s
    * (1 + swp_annual_payout_growth_rate p) in
  {| primary_cumulative_income := primary_cumulative_income s;
     hybrid_sip_corpus := hybrid_sip_corpus s;
     hybrid_swp_corpus := hybrid_swp_corpus s;
     hybrid_cumulative_total_income := hybrid_cumulative_total_income s;
     scheduled_last_year_swp_monthly_payout := current_target_swp_monthly_payout';
     swp_year_counter := (swp_year_counter s + 1)%Z;
     current_target_swp_monthly_payout := current_target_swp_monthly_payout' |}.

(** Assignment to [hybrid_swp_corpus]. *)
Definition set_hybrid_swp_corpus (s : LoopState) (v : Q) : LoopState :=
  {| primary_cumulative_income := primary_cumulative_income s;
     hybrid_sip_corpus := hybrid_sip_corpus s;
     hybrid_swp_corpus := v;
     hybrid_cumulative_total_income := hybrid_cumulative_total_income s;
     scheduled_last_year_swp_monthly_payout := scheduled_last_year_swp_monthly_payout s;
     swp_year_counter := swp_year_counter s;
     current_target_swp_monthly_payout := current_target_swp_monthly_payout s |}.

(** SWP phase, the withdrawal: returns the state with the new SWP corpus and
    [actual_swp_payout_this_month]. *)
Definition swp_withdrawal (p : Params) (s : LoopState) : LoopState * Q :=
  let '(s1, actual_swp_payout_this_month) :=
    if Qle_bool (hybrid_swp_corpus s) 0 then
      (set_hybrid_swp_corpus s 0, 0)
    else
      let interest_on_swp_corpus :=
        hybrid_swp_corpus s * monthly_corpus_growth_rate p in
      let corpus_after_growth := hybrid_swp_corpus s + interest_on_swp_corpus in
      if Qle_bool corpus_after_growth (current_target_swp_monthly_payout s) then
        (set_hybrid_swp_corpus s 0, corpus_after_growth)
      else
        (set_hybrid_swp_corpus s
           (corpus_after_growth - current_target_swp_monthly_payout s),
         current_target_swp_monthly_payout s) in
  let s2 :=
    if Qlt_bool (hybrid_swp_corpus s1) 0 then set_hybrid_swp_corpus s1 0
    else s1 in
  (s2, actual_swp_payout_this_month).

(** The guard of the escalation block: month [m] is a 12-month anniversary
    of the first SWP month, and later than it. *)
Definition escalation_due (p : Params) (m : Z) : bool :=
  ((m - sip_duration_months p >? 0)
   && ((m - sip_duration_months p) mod 12 =? 0))%Z.

(** SWP phase, the state changes that precede the withdrawal. *)
Definition swp_schedule (p : Params) (s : LoopState) (month_index : Z)
  : LoopState :=
  let s1 :=
    if (month_index =? sip_duration_months p)%Z then swp_first_month p s
    else s in
  if escalation_due p month_index then swp_escalation p s1 else s1.

(** The hybrid scenario of one month: the new state, the SIP investment, the
    SWP payout, the SWP corpus shown for the month and the month's total
    hybrid income. *)
Definition hybrid_month (p : Params) (s : LoopState) (month_index : Z)
  : LoopState * (Q * Q * Q * Q) :=
  let hybrid_survival_benefit_received_this_month := monthly_survival_benefit p in
  if (month_index <? sip_duration_months p)%Z then
    let s1 := sip_phase p s in
    (s1, (hybrid_survival_benefit_received_this_month, 0, 0,
          hybrid_survival_benefit_received_this_month))
  else
    let '(s2, actual_swp_payout_this_month) :=
      swp_withdrawal p (swp_schedule p s month_index) in
    (s2, (0, actual_swp_payout_this_month, hybrid_swp_corpus s2,
          hybrid_survival_benefit_received_this_month
          + actual_swp_payout_this_month)).

(** One iteration of [for month_index in range(total_months)]: the state
    after the month and the record appended to [results_list]. *)
Definition loop_body (p : Params) (s : LoopState) (month_index : Z)
  : LoopState * MonthlyRecord :=
  let age_at_month_start :=
    inject_Z (current_age p) + inject_Z month_index / 12 in
  let current_policy_year := (month_index / 12 + 1)%Z in
  let current_policy_month_in_year := (month_index mod 12)%Z in
  let primary_monthly_income := monthly_survival_benefit p in
  let primary_cumulative_income' :=
    primary_cumulative_income s + primary_monthly_income in
  let hybrid_survival_benefit_received_this_month := monthly_survival_benefit p in
  let '(s1, (current_sip_investment_this_month,
             actual_swp_payout_this_month,
             current_hybrid_swp_corpus_value_eom,
             hybrid_total_monthly_income_this_month)) :=
    hybrid_month p s month_index in
  let hybrid_cumulative_total_income' :=
    hybrid_cumulative_total_income s1 + hybrid_total_monthly_income_this_month in
  let s' :=
    {| primary_cumulative_income := primary_cumulative_income';
       hybrid_sip_corpus := hybrid_sip_corpus s1;
       hybrid_swp_corpus := hybrid_swp_corpus s1;
       hybrid_cumulative_total_income := hybrid_cumulative_total_income';
       scheduled_last_year_swp_monthly_payout :=
         scheduled_last_year_swp_monthly_payout s1;
       swp_year_counter := swp_year_counter s1;
       current_target_swp_monthly_payout :=
         current_target_swp_monthly_payout s1 |} in
  (s',
   {| MonthIndex := month_index;
      Age := age_at_month_start;
      PolicyYear := current_policy_year;
      MonthInPolicyYear := (current_policy_month_in_year + 1)%Z;
      Primary_MonthlyIncome := primary_monthly_income;
      Primary_CumulativeIncome := primary_cumulative_income';
      Hybrid_SurvivalBenefitReceived :=
        hybrid_survival_benefit_received_this_month;
      Hybrid_SIPInvestment := current_sip_investment_this_month;
      Hybrid_SIPCorpus_EOM := hybrid_sip_corpus s1;
      Hybrid_SWPPayout := actual_swp_payout_this_month;
      Hybrid_SWPCorpus_EOM := current_hybrid_swp_corpus_value_eom;
      Hybrid_TotalMonthlyIncome := hybrid_total_monthly_income_this_month;
      Hybrid_CumulativeTotalIncome := hybrid_cumulative_total_income';
      SWP_Year :=
        if (month_index >=? sip_duration_months p)%Z then swp_year_counter s1
        else 0%Z;
      Target_SWP_Payout :=
        if (month_index >=? sip_duration_months p)%Z
        then current_target_swp_monthly_payout s1
        else 0 |}).

(** ** The loop *)

(** Python's [range(n)]: [0, 1, ..., n-1], empty when [n <= 0]. *)
Definition range (n : Z) : list Z := map Z.of_nat (seq 0 (Z.to_nat n)).

(** The loop over the months, threading the state and appending one record
    per month to [results_list]. *)
Definition run_loop (p : Params) (months : list Z)
  (acc : LoopState * list MonthlyRecord) : LoopState * list MonthlyRecord :=
  fold_left
    (fun (acc : LoopState * list MonthlyRecord) (month_index : Z) =>
       let '(s, results_list) := acc in
       let '(s', row) := loop_body p s month_index in
       (s', results_list ++ [row]))
    months acc.

(** The rows of the frame returned by [calculate_policy_outcomes]. *)
Definition calculate_policy_outcomes (p : Params) : list MonthlyRecord :=
  snd (run_loop p (range (total_months p)) (initial_state, [])).

(** The loop variables when the iteration for month [n] starts, that is, at
    the end of month [n - 1] (the initial values for [n = 0]). *)
Definition state_before (p : Params) (n : nat) : LoopState :=
  fst (run_loop p (range (Z.of_nat n)) (initial_state, [])).

(** The record the loop appends in the iteration for month [n]. *)
Definition record_of_month (p : Params) (n : nat) : MonthlyRecord :=
  snd (loop_body p (state_before p n) (Z.of_nat n)).

(** The SIP corpus when the SIP phase is over: the value of
    [hybrid_sip_corpus] at the end of the last SIP month (the initial value
    when there is no SIP month). *)
Definition final_sip_corpus (p : Params) : Q :=
  hybrid_sip_corpus (state_before p (Z.to_nat (sip_duration_months p))).

(** The loop variables in the first month of the SWP phase, after the
    transfer of the SIP corpus and before the withdrawal of that month. *)
Definition transition_state (p : Params) : LoopState :=
  swp_schedule p (state_before p (Z.to_nat (sip_duration_months p)))
    (sip_duration_months p).

(** ** What a call can do *)

Inductive EngineError : Type :=
| InvalidParameters.

Inductive CallResult : Type :=
| Returned (rows : list MonthlyRecord)
| Raised (e : EngineError).

(** A call of [calculate_policy_outcomes] on numbers.  The body has no
    [raise] and no check of its arguments, [range] of a non-positive integer
    is empty, and the only divisions are by the constant 12: every call
    returns the frame. *)
Definition call_calculate_policy_outcomes (p : Params) : CallResult :=
  Returned (calculate_policy_outcomes p).

(** ** Parameter sets *)

(** The valid parameter sets of the data model. *)
Definition valid_params (p : Params) : Prop :=
  (current_age p < policy_end_age p)%Z /\
  0 < monthly_survival_benefit p /\
  0 <= sip_annual_return_rate p /\
  0 <= corpus_annual_growth_rate p /\
  0 <= swp_initial_annual_withdrawal_rate p /\
  0 <= swp_annual_payout_growth_rate p /\
  (0 <= sip_duration_months p <= total_months p)%Z.

(** Derived quantities that make no sense for a projection. *)
Definition nonsensical_params (p : Params) : Prop :=
  (total_months p <= 0)%Z \/
  (sip_duration_months p < 0)%Z \/
  (total_months p < sip_duration_months p)%Z \/
  sip_annual_return_rate p < 0 \/
  corpus_annual_growth_rate p < 0 \/
  swp_initial_annual_withdrawal_rate p < 0 \/
  swp_annual_payout_growth_rate p < 0.

(** ** The loop invariant for valid parameter sets *)

(** Balances and the target payout are not negative, the last scheduled
    payout is the current target, and the hybrid scenario has paid at least
    what the primary one has. *)
Definition state_inv (s : LoopState) : Prop :=
  0 <= hybrid_sip_corpus s /\
  0 <= hybrid_swp_corpus s /\
  0 <= current_target_swp_monthly_payout s /\
  scheduled_last_year_swp_monthly_payout s
  = current_target_swp_monthly_payout s /\
  primary_cumulative_income s <= hybrid_cumulative_total_income s.

(** ** Example parameter sets *)

(** Three policy years, one year of SIP, no growth, and a first-year
    withdrawal rate of 1200%: the monthly target is the whole corpus, which
    the first SWP month, month 12, pays out. *)
Definition depleting_params : Params :=
  {| current_age := 40;
     monthly_survival_benefit := 10000;
     policy_end_age := 43;
     sip_duration_years := 1;
     sip_annual_return_rate := 0;
     corpus_annual_growth_rate := 0;
     swp_initial_annual_withdrawal_rate := 12;
     swp_annual_payout_growth_rate := 5 # 100 |}.

(** Three policy years, one year of SIP, 12% returns, 6% first-year
    withdrawal growing 5% a year. *)
Definition growing_params : Params :=
  {| current_age := 40;
     monthly_survival_benefit := 10000;
     policy_end_age := 43;
     sip_duration_years := 1;
     sip_annual_return_rate := 12 # 100;
     corpus_annual_growth_rate := 12 # 100;
     swp_initial_annual_withdrawal_rate := 6 # 100;
     swp_annual_payout_growth_rate := 5 # 100 |}.

(** One policy year and no SIP phase, all rates zero but the withdrawal
    rate: the first SWP month is month 0 and transfers an empty corpus. *)
Definition zero_sip_params : Params :=
  {| current_age := 40;
     monthly_survival_benefit := 10000;
     policy_end_age := 41;
     sip_duration_years := 0;
     sip_annual_return_rate := 0;
     corpus_annual_growth_rate := 0;
     swp_initial_annual_withdrawal_rate := 12 # 100;
     swp_annual_payout_growth_rate := 0 |}.

(** The policy ends before it starts: [total_months = -12]. *)
Definition backwards_params : Params :=
  {| current_age := 41;
     monthly_survival_benefit := 10000;
     policy_end_age := 40;
     sip_duration_years := 1;
     sip_annual_return_rate := 12 # 100;
     corpus_annual_growth_rate := 12 # 100;
     swp_initial_annual_withdrawal_rate := 6 # 100;
     swp_annual_payout_growth_rate := 5 # 100 |}.

(** The SIP phase is longer than the policy: 24 SIP months, 12 policy
    months. *)
Definition overlong_sip_params : Params :=
  {| current_age := 40;
     monthly_survival_benefit := 10000;
     policy_end_age := 41;
     sip_duration_years := 2;
     sip_annual_return_rate := 12 # 100;
     corpus_annual_growth_rate := 12 # 100;
     swp_initial_annual_withdrawal_rate := 6 # 100;
     swp_annual_payout_growth_rate := 5 # 100 |}.

(** ** The script around the engine *)

(** The last value of a column of the frame, 0 for the empty frame:
    [df[col].iloc[-1] if not df.empty else 0]. *)
Definition final_value (col : MonthlyRecord -> Q) (df : list MonthlyRecord)
  : Q :=
  last (map col df) 0.

Definition final_primary_cumulative_income (df : list MonthlyRecord) : Q :=
  final_value Primary_CumulativeIncome df.

Definition final_hybrid_cumulative_total_income (df : list MonthlyRecord)
  : Q :=
  final_value Hybrid_CumulativeTotalIncome df.

Definition final_hybrid_swp_corpus (df : list MonthlyRecord) : Q :=
  final_value Hybrid_SWPCorpus_EOM df.

Definition additional_cumulative_income_from_hybrid
  (df : list MonthlyRecord) : Q :=
  final_hybrid_cumulative_total_income df
  - final_primary_cumulative_income df.

(** The percentage shown as the delta of the "Hybrid Advantage" metric: the
    additional income over the primary total, times 100, and 0 when the
    primary total is zero. *)
Definition hybrid_advantage_percent (df : list MonthlyRecord) : Q :=
  if Qeq_bool (final_primary_cumulative_income df) 0 then 0
  else additional_cumulative_income_from_hybrid df
       / final_primary_cumulative_income df * 100.

(** The rows of the SWP phase, as plotted:
    [df_results[df_results['MonthIndex'] >= sip_duration_years_input * 12]]. *)
Definition swp_phase_df (p : Params) (df : list MonthlyRecord)
  : list MonthlyRecord :=
  filter (fun r => (MonthIndex r >=? sip_duration_years p * 12)%Z) df.

(** The rows of the detailed table when the full table is not asked for:
    [df_results.head(12*2)]. *)
Definition detailed_table_head (df : list MonthlyRecord)
  : list MonthlyRecord :=
  firstn (12 * 2) df.

(** The age at which the charts draw the "SWP Starts" line. *)
Definition swp_start_age (p : Params) : Z :=
  (current_age p + sip_duration_years p)%Z.

(** The ranges of the sidebar widgets: a number input or a slider yields a
    value between its [min_value] and its [max_value]; the rate sliders are
    in percent and divided by 100. *)
Definition sidebar_inputs (p : Params) : Prop :=
  (20 <= current_age p <= 70)%Z /\
  1000 <= monthly_survival_benefit p <= 100000 /\
  (current_age p + 20 <= policy_end_age p <= 100)%Z /\
  (5 <= sip_duration_years p <= 25)%Z /\
  1 / 100 <= sip_annual_return_rate p <= 25 / 100 /\
  1 / 100 <= corpus_annual_growth_rate p <= 25 / 100 /\
  1 / 100 <= swp_initial_annual_withdrawal_rate p <= 20 / 100 /\
  0 / 100 <= swp_annual_payout_growth_rate p <= 10 / 100.

(** The sum of a column of amounts. *)
Definition Qsum (l : list Q) : Q := fold_right Qplus 0 l.

(** The widgets' default values: age 40 to 85, benefit 10000, 12 years of
    SIP at 15%, corpus growth 15%, first withdrawal 12%, payout growth 5%. *)
Definition default_params : Params :=
  {| current_age := 40;
     monthly_survival_benefit := 10000;
     policy_end_age := 85;
     sip_duration_years := 12;
     sip_annual_return_rate := 15 / 100;
     corpus_annual_growth_rate := 15 / 100;
     swp_initial_annual_withdrawal_rate := 12 / 100;
     swp_annual_payout_growth_rate := 5 / 100 |}.

(** A SIP phase that starts before the policy: [sip_duration_months = -12]. *)
Definition negative_sip_params : Params :=
  {| current_age := 40;
     monthly_survival_benefit := 10000;
     policy_end_age := 42;
     sip_duration_years := -1;
     sip_annual_return_rate := 12 # 100;
     corpus_annual_growth_rate := 12 # 100;
     swp_initial_annual_withdrawal_rate := 6 # 100;
     swp_annual_payout_growth_rate := 5 # 100 |}.

(** * The same function on binary64 numbers

    The amounts of a real run are Python floats: the loop variables start
    at [0.0] and every [+], [-], [*] and [/] rounds to binary64.  This
    module repeats the embedding with the kernel's primitive binary64
    floats, operation by operation and in the order of the source, for the
    statements whose truth depends on the rounding. *)

From Corelib Require PrimFloat FloatAxioms Uint63Axioms.

Module Binary64.

Import PrimFloat.
#[local] Set Warnings "-inexact-float".
Local Open Scope float_scope.

(** An integer as a float, as Python converts an [int] operand of a float
    operation (integers of at most 63 bits). *)
Definition float_of_Z (z : Z) : float :=
  match z with
  | Z0 => 0
  | Zpos _ => of_uint63 (Uint63Axioms.of_Z z)
  | Zneg q => - of_uint63 (Uint63Axioms.of_Z (Zpos q))
  end.

Record Params : Type := mkParams {
  current_age : Z;
  monthly_survival_benefit : float;
  policy_end_age : Z;
  sip_duration_years : Z;
  sip_annual_return_rate : float;
  corpus_annual_growth_rate : float;
  swp_initial_annual_withdrawal_rate : float;
  swp_annual_payout_growth_rate : float
}.

Definition policy_duration_years (p : Params) : Z :=
  (policy_end_age p - current_age p)%Z.

Definition total_months (p : Params) : Z :=
  (policy_duration_years p * 12)%Z.

Definition sip_duration_months (p : Params) : Z :=
  (sip_duration_years p * 12)%Z.

Definition monthly_sip_return_rate (p : Params) : float :=
  sip_annual_return_rate p / 12.

Definition monthly_corpus_growth_rate (p : Params) : float :=
  corpus_annual_growth_rate p / 12.

Record LoopState : Type := mkLoopState {
  primary_cumulative_income : float;
  hybrid_sip_corpus : float;
  hybrid_swp_corpus : float;
  hybrid_cumulative_total_income : float;
  scheduled_last_year_swp_monthly_payout : float;
  swp_year_counter : Z;
  current_target_swp_monthly_payout : float
}.

Definition initial_state : LoopState :=
  {| primary_cumulative_income := 0;
     hybrid_sip_corpus := 0;
     hybrid_swp_corpus := 0;
     hybrid_cumulative_total_income := 0;
     scheduled_last_year_swp_monthly_payout := 0;
     swp_year_counter := 0%Z;
     current_target_swp_monthly_payout := 0 |}.

Record MonthlyRecord : Type := mkMonthlyRecord {
  MonthIndex : Z;
  Age : float;
  PolicyYear : Z;
  MonthInPolicyYear : Z;
  Primary_MonthlyIncome : float;
  Primary_CumulativeIncome : float;
  Hybrid_SurvivalBenefitReceived : float;
  Hybrid_SIPInvestment : float;
  Hybrid_SIPCorpus_EOM : float;
  Hybrid_SWPPayout : float;
  Hybrid_SWPCorpus_EOM : float;
  Hybrid_TotalMonthlyIncome : float;
  Hybrid_CumulativeTotalIncome : float;
  SWP_Year : Z;
  Target_SWP_Payout : float
}.

(** SIP phase: [interest_on_sip] is computed from the corpus and added to
    it, then the investment is added: two additions, each rounded. *)
Definition sip_phase (p : Params) (s : LoopState) : LoopState :=
  let current_sip_investment_this_month := monthly_survival_benefit p in
  let interest_on_sip := hybrid_sip_corpus s * monthly_sip_return_rate p in
  let hybrid_sip_corpus1 := hybrid_sip_corpus s + interest_on_sip in
  let hybrid_sip_corpus2 :=
    hybrid_sip_corpus1 + current_sip_investment_this_month in
  {| primary_cumulative_income := primary_cumulative_income s;
     hybrid_sip_corpus := hybrid_sip_corpus2;
     hybrid_swp_corpus := hybrid_swp_corpus s;
     hybrid_cumulative_total_income := hybrid_cumulative_total_income s;
     scheduled_last_year_swp_monthly_payout :=
       scheduled_last_year_swp_monthly_payout s;
     swp_year_counter := swp_year_counter s;
     current_target_swp_monthly_payout :=
       current_target_swp_monthly_payout s |}.

Definition swp_first_month (p : Params) (s : LoopState) : LoopState :=
  let hybrid_swp_corpus' := hybrid_sip_corpus s in
  let annual_swp_amount_year1 :=
    hybrid_swp_corpus' * swp_initial_annual_withdrawal_rate p in
  let current_target_swp_monthly_payout' := annual_swp_amount_year1 / 12 in
  {| primary_cumulative_income := primary_cumulative_income s;
     hybrid_sip_corpus := hybrid_sip_corpus s;
     hybrid_swp_corpus := hybrid_swp_corpus';
     hybrid_cumulative_total_income := hybrid_cumulative_total_income s;
     scheduled_last_year_swp_monthly_payout :=
       current_target_swp_monthly_payout';
     swp_year_counter := 1%Z;
     current_target_swp_monthly_payout :=
       current_target_swp_monthly_payout' |}.

Definition swp_escalation (p : Params) (s : LoopState) : LoopState :=
  let current_target_swp_monthly_payout' :=
    scheduled_last_year_swp_monthly_payout s
    * (1 + swp_annual_payout_growth_rate p) in
  {| primary_cumulative_income := primary_cumulative_income s;
     hybrid_sip_corpus := hybrid_sip_corpus s;
     hybrid_swp_corpus := hybrid_swp_corpus s;
     hybrid_cumulative_total_income := hybrid_cumulative_total_income s;
     scheduled_last_year_swp_monthly_payout :=
       current_target_swp_monthly_payout';
     swp_year_counter := (swp_year_counter s + 1)%Z;
     current_target_swp_monthly_payout :=
       current_target_swp_monthly_payout' |}.

Definition set_hybrid_swp_corpus (s : LoopState) (v : float) : LoopState :=
  {| primary_cumulative_income := primary_cumulative_income s;
     hybrid_sip_corpus := hybrid_sip_corpus s;
     hybrid_swp_corpus := v;
     hybrid_cumulative_total_income := hybrid_cumulative_total_income s;
     scheduled_last_year_swp_monthly_payout :=
       scheduled_last_year_swp_monthly_payout s;
     swp_year_counter := swp_year_counter s;
     current_target_swp_monthly_payout :=
       current_target_swp_monthly_payout s |}.

Definition swp_withdrawal (p : Params) (s : LoopState) : LoopState * float :=
  let '(s1, actual_swp_payout_this_month) :=
    if hybrid_swp_corpus s <=? 0 then
      (set_hybrid_swp_corpus s 0, 0)
    else
      let interest_on_swp_corpus :=
        hybrid_swp_corpus s * monthly_corpus_growth_rate p in
      let corpus_after_growth := hybrid_swp_corpus s + interest_on_swp_corpus in
      if corpus_after_growth <=? current_target_swp_monthly_payout s then
        (set_hybrid_swp_corpus s 0, corpus_after_growth)
      else
        (set_hybrid_swp_corpus s
           (corpus_after_growth - current_target_swp_monthly_payout s),
         current_target_swp_monthly_payout s) in
  let s2 :=
    if hybrid_swp_corpus s1 <? 0 then set_hybrid_swp_corpus s1 0 else s1 in
  (s2, actual_swp_payout_this_month).

Definition escalation_due (p : Params) (m : Z) : bool :=
  ((m - sip_duration_months p >? 0)
   && ((m - sip_duration_months p) mod 12 =? 0))%Z.

Definition swp_schedule (p : Params) (s : LoopState) (month_index : Z)
  : LoopState :=
  let s1 :=
    if (month_index =? sip_duration_months p)%Z then swp_first_month p s
    else s in
  if escalation_due p month_index then swp_escalation p s1 else s1.

Definition hybrid_month (p : Params) (s : LoopState) (month_index : Z)
  : LoopState * (float * float * float * float) :=
  let hybrid_survival_benefit_received_this_month :=
    monthly_survival_benefit p in
  if (month_index <? sip_duration_months p)%Z then
    let s1 := sip_phase p s in
    (s1, (hybrid_survival_benefit_received_this_month, 0, 0,
          hybrid_survival_benefit_received_this_month))
  else
    let '(s2, actual_swp_payout_this_month) :=
      swp_withdrawal p (swp_schedule p s month_index) in
    (s2, (0, actual_swp_payout_this_month, hybrid_swp_corpus s2,
          hybrid_survival_benefit_received_this_month
          + actual_swp_payout_this_month)).

Definition loop_body (p : Params) (s : LoopState) (month_index : Z)
  : LoopState * MonthlyRecord :=
  let age_at_month_start :=
    float_of_Z (current_age p) + float_of_Z month_index / 12 in
  let current_policy_year := (month_index / 12 + 1)%Z in
  let current_policy_month_in_year := (month_index mod 12)%Z in
  let primary_monthly_income := monthly_survival_benefit p in
  let primary_cumulative_income' :=
    primary_cumulative_income s + primary_monthly_income in
  let hybrid_survival_benefit_received_this_month :=
    monthly_survival_benefit p in
  let '(s1, (current_sip_investment_this_month,
             actual_swp_payout_this_month,
             current_hybrid_swp_corpus_value_eom,
             hybrid_total_monthly_income_this_month)) :=
    hybrid_month p s month_index in
  let hybrid_cumulative_total_income' :=
    hybrid_cumulative_total_income s1
    + hybrid_total_monthly_income_this_month in
  let s' :=
    {| primary_cumulative_income := primary_cumulative_income';
       hybrid_sip_corpus := hybrid_sip_corpus s1;
       hybrid_swp_corpus := hybrid_swp_corpus s1;
       hybrid_cumulative_total_income := hybrid_cumulative_total_income';
       scheduled_last_year_swp_monthly_payout :=
         scheduled_last_year_swp_monthly_payout s1;
       swp_year_counter := swp_year_counter s1;
       current_target_swp_monthly_payout :=
         current_target_swp_monthly_payout s1 |} in
  (s',
   {| MonthIndex := month_index;
      Age := age_at_month_start;
      PolicyYear := current_policy_year;
      MonthInPolicyYear := (current_policy_month_in_year + 1)%Z;
      Primary_MonthlyIncome := primary_monthly_income;
      Primary_CumulativeIncome := primary_cumulative_income';
      Hybrid_SurvivalBenefitReceived :=
        hybrid_survival_benefit_received_this_month;
      Hybrid_SIPInvestment := current_sip_investment_this_month;
      Hybrid_SIPCorpus_EOM := hybrid_sip_corpus s1;
      Hybrid_SWPPayout := actual_swp_payout_this_month;
      Hybrid_SWPCorpus_EOM := current_hybrid_swp_corpus_value_eom;
      Hybrid_TotalMonthlyIncome := hybrid_total_monthly_income_this_month;
      Hybrid_CumulativeTotalIncome := hybrid_cumulative_total_income';
      SWP_Year :=
        if (month_index >=? sip_duration_months p)%Z then swp_year_counter s1
        else 0%Z;
      Target_SWP_Payout :=
        if (month_index >=? sip_duration_months p)%Z
        then current_target_swp_monthly_payout s1
        else 0 |}).

Definition run_loop (p : Params) (months : list Z)
  (acc : LoopState * list MonthlyRecord) : LoopState * list MonthlyRecord :=
  fold_left
    (fun (acc : LoopState * list MonthlyRecord) (month_index : Z) =>
       let '(s, results_list) := acc in
       let '(s', row) := loop_body p s month_index in
       (s', results_list ++ [row]))
    months acc.

Definition calculate_policy_outcomes (p : Params) : list MonthlyRecord :=
  snd (run_loop p (range (total_months p)) (initial_state, [])).

(** The loop variables when the iteration for month [n] starts. *)
Definition state_before (p : Params) (n : nat) : LoopState :=
  fst (run_loop p (range (Z.of_nat n)) (initial_state, [])).

(** The record the loop appends in the iteration for month [n]. *)
Definition record_of_month (p : Params) (n : nat) : MonthlyRecord :=
  snd (loop_body p (state_before p n) (Z.of_nat n)).

(** The valid parameter sets, with the comparisons of binary64. *)
Definition valid_params (p : Params) : Prop :=
  (current_age p < policy_end_age p)%Z /\
  (0 <? monthly_survival_benefit p) = true /\
  (0 <=? sip_annual_return_rate p) = true /\
  (0 <=? corpus_annual_growth_rate p) = true /\
  (0 <=? swp_initial_annual_withdrawal_rate p) = true /\
  (0 <=? swp_annual_payout_growth_rate p) = true /\
  (0 <= sip_duration_months p <= total_months p)%Z.

(** [n] additions of [b], from the left, starting from [0.0]. *)
Fixpoint repeated_add (b : float) (n : nat) : float :=
  match n with
  | O => 0
  | S k => repeated_add b k + b
  end.

(** No addition of the first [n + 1] rounds away from the product: [0.0 + b]
    is [b * 1], and [b * k + b] is [b * (k + 1)] for [k] from 1 to [n]. *)
Definition exact_multiples (b : float) (n : nat) : bool :=
  Leibniz.eqb (0 + b) (b * float_of_Z 1)
  && forallb
       (fun k =>
          Leibniz.eqb (b * float_of_Z (Z.of_nat k) + b)
            (b * float_of_Z (Z.of_nat k + 1)))
       (seq 1 n).

(** One policy year, a benefit of [0.1], no SIP phase. *)
Definition dime_params : Params :=
  {| current_age := 40;
     monthly_survival_benefit := 0.1;
     policy_end_age := 41;
     sip_duration_years := 0;
     sip_annual_return_rate := 0;
     corpus_annual_growth_rate := 0;
     swp_initial_annual_withdrawal_rate := 0.12;
     swp_annual_payout_growth_rate := 0 |}.

(** Three policy years, one year of SIP at 12%, 6% first-year withdrawal
    growing 5% a year. *)
Definition growing_params : Params :=
  {| current_age := 40;
     monthly_survival_benefit := 10000;
     policy_end_age := 43;
     sip_duration_years := 1;
     sip_annual_return_rate := 0.12;
     corpus_annual_growth_rate := 0.12;
     swp_initial_annual_withdrawal_rate := 0.06;
     swp_annual_payout_growth_rate := 0.05 |}.

(** The widgets' default values. *)
Definition default_params : Params :=
  {| current_age := 40;
     monthly_survival_benefit := 10000;
     policy_end_age := 85;
     sip_duration_years := 12;
     sip_annual_return_rate := 0.15;
     corpus_annual_growth_rate := 0.15;
     swp_initial_annual_withdrawal_rate := 0.12;
     swp_annual_payout_growth_rate := 0.05 |}.

End Binary64.

(** * Properties *)

(** ** Comparisons *)

Lemma Qle_bool_true (x y : Q) : Qle_bool x y = true -> x <= y.
Proof. apply Qle_bool_iff. Qed.

Lemma Qle_bool_false (x y : Q) : Qle_bool x y = false -> y < x.
Proof.
  intros H. apply Qnot_le_lt. intros Hle.
  apply Qle_bool_iff in Hle. congruence.
Qed.

Lemma Qlt_bool_true (x y : Q) : Qlt_bool x y = true -> x < y.
Proof.
  unfold Qlt_bool. intros H. apply Qle_bool_false.
  now apply negb_true_iff.
Qed.

Lemma Qlt_bool_false (x y : Q) : Qlt_bool x y = false -> y <= x.
Proof.
  unfold Qlt_bool. intros H. apply Qle_bool_true.
  now apply negb_false_iff.
Qed.

(** ** The loop as a trace of states and records *)

Lemma range_succ (n : nat) :
  range (Z.of_nat (S n)) = range (Z.of_nat n) ++ [Z.of_nat n].
Proof.
  unfold range. rewrite !Nat2Z.id, seq_S, map_app. reflexivity.
Qed.

Lemma run_loop_app (p : Params) (l1 l2 : list Z) acc :
  run_loop p (l1 ++ l2) acc = run_loop p l2 (run_loop p l1 acc).
Proof. unfold run_loop. apply fold_left_app. Qed.

Lemma run_loop_trace (p : Params) (n : nat) :
  run_loop p (range (Z.of_nat n)) (initial_state, [])
  = (state_before p n, map (record_of_month p) (seq 0 n)).
Proof.
  induction n as [|n IH].
  - reflexivity.
  - assert (Hs : state_before p (S n)
                 = fst (loop_body p (state_before p n) (Z.of_nat n))).
    { unfold state_before at 1.
      rewrite range_succ, run_loop_app, IH. simpl.
      destruct (loop_body p (state_before p n) (Z.of_nat n)); reflexivity. }
    rewrite Hs, range_succ, run_loop_app, IH, seq_S, map_app. simpl.
    unfold record_of_month.
    destruct (loop_body p (state_before p n) (Z.of_nat n)); reflexivity.
Qed.

Lemma state_before_0 (p : Params) : state_before p 0 = initial_state.
Proof. reflexivity. Qed.

Lemma state_before_S (p : Params) (n : nat) :
  state_before p (S n) = fst (loop_body p (state_before p n) (Z.of_nat n)).
Proof.
  unfold state_before at 1.
  rewrite range_succ, run_loop_app, run_loop_trace. simpl.
  destruct (loop_body p (state_before p n) (Z.of_nat n)); reflexivity.
Qed.

Lemma outcomes_trace (p : Params) :
  calculate_policy_outcomes p
  = map (record_of_month p) (seq 0 (Z.to_nat (total_months p))).
Proof.
  unfold calculate_policy_outcomes, range.
  change (map Z.of_nat (seq 0 (Z.to_nat (total_months p))))
    with (range (total_months p)).
  destruct (Z_le_gt_dec 0 (total_months p)) as [Hle|Hgt].
  - rewrite <- (Z2Nat.id (total_months p)) at 1 by exact Hle.
    rewrite run_loop_trace. reflexivity.
  - unfold range. destruct (total_months p); try lia; reflexivity.
Qed.

Lemma outcomes_length (p : Params) :
  length (calculate_policy_outcomes p) = Z.to_nat (total_months p).
Proof. now rewrite outcomes_trace, length_map, length_seq. Qed.

Lemma outcomes_nth (p : Params) (n : nat) :
  (Z.of_nat n < total_months p)%Z ->
  nth_error (calculate_policy_outcomes p) n = Some (record_of_month p n).
Proof.
  intros H. rewrite outcomes_trace.
  rewrite nth_error_map, nth_error_seq.
  assert (Hn : (n <? Z.to_nat (total_months p))%nat = true)
    by (apply Nat.ltb_lt; lia).
  rewrite Hn. reflexivity.
Qed.

(** ** The blocks of the SWP phase *)

Section Blocks.

Variable p : Params.

Lemma escalation_not_due_at_start (m : Z) :
  m = sip_duration_months p -> escalation_due p m = false.
Proof.
  intros ->. unfold escalation_due. rewrite Z.sub_diag. reflexivity.
Qed.

Lemma swp_schedule_first (s : LoopState) (m : Z) :
  m = sip_duration_months p -> swp_schedule p s m = swp_first_month p s.
Proof.
  intros H. unfold swp_schedule.
  rewrite (escalation_not_due_at_start m H).
  apply Z.eqb_eq in H. now rewrite H.
Qed.

Lemma swp_schedule_later (s : LoopState) (m : Z) :
  m <> sip_duration_months p ->
  swp_schedule p s m
  = if escalation_due p m then swp_escalation p s else s.
Proof.
  intros H. unfold swp_schedule.
  apply Z.eqb_neq in H. now rewrite H.
Qed.

Lemma swp_schedule_frame (s : LoopState) (m : Z) :
  primary_cumulative_income (swp_schedule p s m) = primary_cumulative_income s /\
  hybrid_sip_corpus (swp_schedule p s m) = hybrid_sip_corpus s /\
  hybrid_cumulative_total_income (swp_schedule p s m)
  = hybrid_cumulative_total_income s.
Proof.
  unfold swp_schedule.
  destruct (m =? sip_duration_months p)%Z, (escalation_due p m);
    repeat split; reflexivity.
Qed.

Lemma swp_schedule_keeps_corpus (s : LoopState) (m : Z) :
  m <> sip_duration_months p ->
  hybrid_swp_corpus (swp_schedule p s m) = hybrid_swp_corpus s.
Proof.
  intros H. rewrite (swp_schedule_later s m H).
  destruct (escalation_due p m); reflexivity.
Qed.

Lemma swp_schedule_scheduled (s : LoopState) (m : Z) :
  scheduled_last_year_swp_monthly_payout s
  = current_target_swp_monthly_payout s ->
  scheduled_last_year_swp_monthly_payout (swp_schedule p s m)
  = current_target_swp_monthly_payout (swp_schedule p s m).
Proof.
  intros H. unfold swp_schedule.
  destruct (m =? sip_duration_months p)%Z, (escalation_due p m);
    simpl; auto.
Qed.

Lemma swp_withdrawal_frame (s : LoopState) :
  let s2 := fst (swp_withdrawal p s) in
  primary_cumulative_income s2 = primary_cumulative_income s /\
  hybrid_sip_corpus s2 = hybrid_sip_corpus s /\
  hybrid_cumulative_total_income s2 = hybrid_cumulative_total_income s /\
  scheduled_last_year_swp_monthly_payout s2
  = scheduled_last_year_swp_monthly_payout s /\
  swp_year_counter s2 = swp_year_counter s /\
  current_target_swp_monthly_payout s2 = current_target_swp_monthly_payout s.
Proof.
  unfold swp_withdrawal.
  destruct (Qle_bool (hybrid_swp_corpus s) 0); simpl.
  - repeat split; reflexivity.
  - destruct (Qle_bool _ (current_target_swp_monthly_payout s)); simpl.
    + repeat split; reflexivity.
    + destruct (Qlt_bool _ 0); simpl; repeat split; reflexivity.
Qed.

(** The corpus left by the withdrawal is never negative, whatever the
    rates. *)
Lemma swp_withdrawal_corpus_nonneg (s : LoopState) :
  0 <= hybrid_swp_corpus (fst (swp_withdrawal p s)).
Proof.
  unfold swp_withdrawal.
  destruct (Qle_bool (hybrid_swp_corpus s) 0); simpl.
  - lra.
  - destruct (Qle_bool _ (current_target_swp_monthly_payout s)); simpl.
    + lra.
    + destruct (Qlt_bool _ 0) eqn:E; simpl.
      * lra.
      * apply Qlt_bool_false in E. exact E.
Qed.

(** An exhausted corpus pays nothing and stays exhausted. *)
Lemma swp_withdrawal_depleted (s : LoopState) :
  hybrid_swp_corpus s <= 0 ->
  hybrid_swp_corpus (fst (swp_withdrawal p s)) == 0 /\
  snd (swp_withdrawal p s) == 0.
Proof.
  intros H. unfold swp_withdrawal.
  apply Qle_bool_iff in H. rewrite H. simpl. split; reflexivity.
Qed.

(** A target that reaches the grown corpus exhausts it. *)
Lemma swp_withdrawal_exhausts (s : LoopState) :
  hybrid_swp_corpus s + hybrid_swp_corpus s * monthly_corpus_growth_rate p
  <= current_target_swp_monthly_payout s ->
  hybrid_swp_corpus (fst (swp_withdrawal p s)) == 0.
Proof.
  intros H. unfold swp_withdrawal.
  destruct (Qle_bool (hybrid_swp_corpus s) 0); simpl; [reflexivity|].
  destruct (Qle_bool _ (current_target_swp_monthly_payout s)) eqn:E; simpl.
  - reflexivity.
  - apply Qle_bool_false in E. lra.
Qed.

(** With a non-negative growth rate and target, the payout is not negative. *)
Lemma swp_withdrawal_payout_nonneg (s : LoopState) :
  0 <= corpus_annual_growth_rate p ->
  0 <= current_target_swp_monthly_payout s ->
  0 <= snd (swp_withdrawal p s).
Proof.
  intros Hg Ht. unfold swp_withdrawal.
  destruct (Qle_bool (hybrid_swp_corpus s) 0) eqn:E0; simpl.
  - lra.
  - apply Qle_bool_false in E0.
    destruct (Qle_bool _ (current_target_swp_monthly_payout s)); simpl.
    + unfold monthly_corpus_growth_rate.
      assert (0 <= hybrid_swp_corpus s * (corpus_annual_growth_rate p / 12)).
      { apply Qmult_le_0_compat; [lra|].
        apply Qle_shift_div_l; lra. }
      lra.
    + exact Ht.
Qed.

End Blocks.

(** ** One month of the loop *)

Section Month.

Variable p : Params.

Ltac enter_sip H :=
  unfold loop_body, hybrid_month;
  rewrite (proj2 (Z.ltb_lt _ _) H); simpl.

Ltac enter_swp H s m :=
  let s2 := fresh "s2" in
  let pay := fresh "pay" in
  let W := fresh "W" in
  let F := fresh "F" in
  let G := fresh "G" in
  unfold loop_body, hybrid_month;
  rewrite (proj2 (Z.ltb_ge _ _) H);
  pose proof (swp_withdrawal_frame p (swp_schedule p s m)) as F;
  pose proof (swp_schedule_frame p s m) as G;
  destruct (swp_withdrawal p (swp_schedule p s m)) as [s2 pay] eqn:W;
  simpl in F |- *.

(** What every month does, in either phase. *)
Lemma month_common (s : LoopState) (m : Z) :
  let s' := fst (loop_body p s m) in
  let r := snd (loop_body p s m) in
  MonthIndex r = m /\
  primary_cumulative_income s'
  = primary_cumulative_income s + monthly_survival_benefit p /\
  Primary_CumulativeIncome r = primary_cumulative_income s' /\
  Hybrid_CumulativeTotalIncome r = hybrid_cumulative_total_income s' /\
  Hybrid_SIPCorpus_EOM r = hybrid_sip_corpus s'.
Proof.
  unfold loop_body.
  destruct (hybrid_month p s m) as [s1 [[[inv pay] eom] tot]].
  simpl. repeat split; reflexivity.
Qed.

(** The state after a month of the SIP phase. *)
Lemma sip_month_state (s : LoopState) (m : Z) :
  (m < sip_duration_months p)%Z ->
  let s' := fst (loop_body p s m) in
  hybrid_sip_corpus s'
  = hybrid_sip_corpus s + hybrid_sip_corpus s * monthly_sip_return_rate p
    + monthly_survival_benefit p /\
  hybrid_swp_corpus s' = hybrid_swp_corpus s /\
  hybrid_cumulative_total_income s'
  = hybrid_cumulative_total_income s + monthly_survival_benefit p /\
  scheduled_last_year_swp_monthly_payout s'
  = scheduled_last_year_swp_monthly_payout s /\
  swp_year_counter s' = swp_year_counter s /\
  current_target_swp_monthly_payout s' = current_target_swp_monthly_payout s.
Proof.
  intros H. enter_sip H. repeat split; reflexivity.
Qed.

(** The record of a month of the SIP phase. *)
Lemma sip_month_record (s : LoopState) (m : Z) :
  (m < sip_duration_months p)%Z ->
  let r := snd (loop_body p s m) in
  Hybrid_SIPInvestment r = monthly_survival_benefit p /\
  Hybrid_SWPPayout r = 0 /\
  Hybrid_SWPCorpus_EOM r = 0 /\
  Hybrid_TotalMonthlyIncome r = monthly_survival_benefit p /\
  SWP_Year r = 0%Z /\
  Target_SWP_Payout r = 0.
Proof.
  intros H. enter_sip H.
  assert (E : (m >=? sip_duration_months p)%Z = false)
    by (rewrite Z.geb_leb; apply Z.leb_gt; exact H).
  rewrite E. repeat split; reflexivity.
Qed.

(** The state after a month of the SWP phase. *)
Lemma swp_month_state (s : LoopState) (m : Z) :
  (sip_duration_months p <= m)%Z ->
  let s1 := swp_schedule p s m in
  let s' := fst (loop_body p s m) in
  hybrid_sip_corpus s' = hybrid_sip_corpus s /\
  hybrid_swp_corpus s' = hybrid_swp_corpus (fst (swp_withdrawal p s1)) /\
  hybrid_cumulative_total_income s'
  = hybrid_cumulative_total_income s
    + (monthly_survival_benefit p + snd (swp_withdrawal p s1)) /\
  scheduled_last_year_swp_monthly_payout s'
  = scheduled_last_year_swp_monthly_payout s1 /\
  swp_year_counter s' = swp_year_counter s1 /\
  current_target_swp_monthly_payout s' = current_target_swp_monthly_payout s1.
Proof.
  intros H. enter_swp H s m.
  destruct F as (_ & F2 & F3 & F4 & F5 & F6).
  destruct G as (_ & G2 & G3).
  rewrite F2, F3, F4, F5, F6, G2, G3. repeat split; reflexivity.
Qed.

(** The record of a month of the SWP phase. *)
Lemma swp_month_record (s : LoopState) (m : Z) :
  (sip_duration_months p <= m)%Z ->
  let s1 := swp_schedule p s m in
  let r := snd (loop_body p s m) in
  Hybrid_SIPInvestment r = 0 /\
  Hybrid_SWPPayout r = snd (swp_withdrawal p s1) /\
  Hybrid_SWPCorpus_EOM r = hybrid_swp_corpus (fst (swp_withdrawal p s1)) /\
  Hybrid_TotalMonthlyIncome r
  = monthly_survival_benefit p + snd (swp_withdrawal p s1) /\
  SWP_Year r = swp_year_counter s1 /\
  Target_SWP_Payout r = current_target_swp_monthly_payout s1.
Proof.
  intros H. enter_swp H s m.
  assert (E : (m >=? sip_duration_months p)%Z = true)
    by (rewrite Z.geb_leb; apply Z.leb_le; exact H).
  destruct F as (_ & _ & _ & _ & F5 & F6).
  rewrite E, F5, F6. repeat split; reflexivity.
Qed.

End Month.

(** ** Invariants of the run *)

Section Run.

Variable p : Params.

Lemma monthly_sip_return_rate_nonneg :
  0 <= sip_annual_return_rate p -> 0 <= monthly_sip_return_rate p.
Proof.
  intros H. unfold monthly_sip_return_rate. apply Qle_shift_div_l; lra.
Qed.

Lemma swp_schedule_target_nonneg (s : LoopState) (m : Z) :
  0 <= swp_initial_annual_withdrawal_rate p ->
  0 <= swp_annual_payout_growth_rate p ->
  state_inv s ->
  0 <= current_target_swp_monthly_payout (swp_schedule p s m).
Proof.
  intros Hw Hg (Hsip & _ & Ht & Hsch & _).
  assert (H1 : 0 <= hybrid_sip_corpus s * swp_initial_annual_withdrawal_rate p / 12).
  { apply Qle_shift_div_l; [lra|].
    rewrite Qmult_0_l. now apply Qmult_le_0_compat. }
  unfold swp_schedule.
  destruct (m =? sip_duration_months p)%Z, (escalation_due p m); simpl;
    try assumption.
  - apply Qmult_le_0_compat; [exact H1 | lra].
  - rewrite Hsch. apply Qmult_le_0_compat; [exact Ht | lra].
Qed.

Lemma state_inv_initial : state_inv initial_state.
Proof. unfold state_inv; simpl. repeat split; try reflexivity; lra. Qed.

Lemma state_inv_step (s : LoopState) (m : Z) :
  valid_params p -> state_inv s -> state_inv (fst (loop_body p s m)).
Proof.
  intros (_ & Hb & Hr & Hc & Hw & Hg & _) Hinv.
  pose proof Hinv as (Hsip & Hswp & Ht & Hsch & Hcum).
  destruct (month_common p s m) as (_ & Hprim & _).
  destruct (Z_lt_le_dec m (sip_duration_months p)) as [Hlt|Hge].
  - destruct (sip_month_state p s m Hlt) as (E1 & E2 & E3 & E4 & _ & E6).
    unfold state_inv. rewrite E1, E2, E3, E4, E6, Hprim.
    pose proof (monthly_sip_return_rate_nonneg Hr) as Hm.
    pose proof (Qmult_le_0_compat _ _ Hsip Hm).
    repeat split; try assumption; lra.
  - destruct (swp_month_state p s m Hge) as (E1 & E2 & E3 & E4 & _ & E6).
    pose proof (swp_schedule_target_nonneg s m Hw Hg Hinv) as Ht1.
    pose proof (swp_withdrawal_payout_nonneg p (swp_schedule p s m) Hc Ht1).
    unfold state_inv. rewrite E1, E2, E3, E4, E6, Hprim.
    repeat split.
    + exact Hsip.
    + apply swp_withdrawal_corpus_nonneg.
    + exact Ht1.
    + now apply swp_schedule_scheduled.
    + lra.
Qed.

Lemma state_inv_before (n : nat) :
  valid_params p -> state_inv (state_before p n).
Proof.
  intros Hv. induction n as [|n IH].
  - apply state_inv_initial.
  - rewrite state_before_S. now apply state_inv_step.
Qed.

(** The primary scenario has received one benefit per elapsed month. *)
Lemma primary_income_before (n : nat) :
  primary_cumulative_income (state_before p n)
  == monthly_survival_benefit p * inject_Z (Z.of_nat n).
Proof.
  induction n as [|n IH].
  - rewrite state_before_0. change (inject_Z (Z.of_nat 0)) with 0.
    unfold initial_state, primary_cumulative_income. lra.
  - rewrite state_before_S.
    destruct (month_common p (state_before p n) (Z.of_nat n)) as (_ & E & _).
    rewrite E, IH, Nat2Z.inj_succ. unfold Z.succ. rewrite inject_Z_plus.
    change (inject_Z 1) with 1. lra.
Qed.

(** The record of month [n] shows the state left by month [n]. *)
Lemma record_shows_state (n : nat) :
  let r := record_of_month p n in
  MonthIndex r = Z.of_nat n /\
  Primary_CumulativeIncome r
  = primary_cumulative_income (state_before p (S n)) /\
  Hybrid_CumulativeTotalIncome r
  = hybrid_cumulative_total_income (state_before p (S n)) /\
  Hybrid_SIPCorpus_EOM r = hybrid_sip_corpus (state_before p (S n)).
Proof.
  unfold record_of_month. rewrite state_before_S.
  destruct (month_common p (state_before p n) (Z.of_nat n))
    as (E1 & _ & E3 & E4 & E5).
  repeat split; assumption.
Qed.

(** The SWP corpus shown in a record is never negative, whatever the
    parameters. *)
Lemma record_swp_corpus_nonneg (n : nat) :
  0 <= Hybrid_SWPCorpus_EOM (record_of_month p n).
Proof.
  unfold record_of_month.
  destruct (Z_lt_le_dec (Z.of_nat n) (sip_duration_months p)) as [Hlt|Hge].
  - destruct (sip_month_record p (state_before p n) _ Hlt) as (_ & _ & E & _).
    rewrite E. lra.
  - destruct (swp_month_record p (state_before p n) _ Hge) as (_ & _ & E & _).
    rewrite E. apply swp_withdrawal_corpus_nonneg.
Qed.

(** Both cumulative incomes grow, or stay, from one month to the next. *)
Lemma cumulative_incomes_step (s : LoopState) (m : Z) :
  valid_params p -> state_inv s ->
  primary_cumulative_income s
  <= primary_cumulative_income (fst (loop_body p s m)) /\
  hybrid_cumulative_total_income s
  <= hybrid_cumulative_total_income (fst (loop_body p s m)).
Proof.
  intros Hv Hinv.
  pose proof Hv as (_ & Hb & _ & Hc & Hw & Hg & _).
  destruct (month_common p s m) as (_ & Hprim & _).
  rewrite Hprim. split; [lra|].
  destruct (Z_lt_le_dec m (sip_duration_months p)) as [Hlt|Hge].
  - destruct (sip_month_state p s m Hlt) as (_ & _ & E3 & _).
    rewrite E3. lra.
  - destruct (swp_month_state p s m Hge) as (_ & _ & E3 & _).
    pose proof (swp_schedule_target_nonneg s m Hw Hg Hinv) as Ht1.
    pose proof (swp_withdrawal_payout_nonneg p (swp_schedule p s m) Hc Ht1).
    rewrite E3. lra.
Qed.

(** Once the SIP phase is over the SIP corpus no longer changes. *)
Lemma sip_corpus_frozen (n : nat) :
  (sip_duration_months p <= Z.of_nat n)%Z ->
  hybrid_sip_corpus (state_before p n) = final_sip_corpus p.
Proof.
  unfold final_sip_corpus. induction n as [|n IH]; intros H.
  - replace (Z.to_nat (sip_duration_months p)) with 0%nat by lia.
    reflexivity.
  - destruct (Z_le_gt_dec (sip_duration_months p) (Z.of_nat n)) as [Hle|Hgt].
    + rewrite state_before_S.
      destruct (swp_month_state p (state_before p n) _ Hle) as (E & _).
      rewrite E. now apply IH.
    + replace (Z.to_nat (sip_duration_months p)) with (S n) by lia.
      reflexivity.
Qed.

(** During the SIP phase the SIP corpus grows by interest, then by the
    benefit. *)
Lemma sip_corpus_step (n : nat) :
  (Z.of_nat n < sip_duration_months p)%Z ->
  hybrid_sip_corpus (state_before p (S n))
  == hybrid_sip_corpus (state_before p n)
     * (1 + sip_annual_return_rate p / 12)
     + monthly_survival_benefit p.
Proof.
  intros H. rewrite state_before_S.
  destruct (sip_month_state p (state_before p n) _ H) as (E & _).
  rewrite E. unfold monthly_sip_return_rate. ring.
Qed.

(** The escalation guard, as a proposition. *)
Lemma escalation_due_iff (m : Z) :
  escalation_due p m = true <->
  (0 < m - sip_duration_months p)%Z /\
  ((m - sip_duration_months p) mod 12 = 0)%Z.
Proof.
  unfold escalation_due.
  rewrite andb_true_iff, Z.gtb_ltb, Z.ltb_lt, Z.eqb_eq. reflexivity.
Qed.

(** A record of the SWP phase shows the year counter and the target of the
    state the month leaves. *)
Lemma swp_record_shows_schedule (n : nat) :
  (sip_duration_months p <= Z.of_nat n)%Z ->
  SWP_Year (record_of_month p n) = swp_year_counter (state_before p (S n)) /\
  Target_SWP_Payout (record_of_month p n)
  = current_target_swp_monthly_payout (state_before p (S n)) /\
  Hybrid_SWPCorpus_EOM (record_of_month p n)
  = hybrid_swp_corpus (state_before p (S n)).
Proof.
  intros H. unfold record_of_month. rewrite state_before_S.
  destruct (swp_month_state p (state_before p n) _ H)
    as (_ & E2 & _ & _ & E5 & E6).
  destruct (swp_month_record p (state_before p n) _ H)
    as (_ & _ & R3 & _ & R5 & R6).
  rewrite E2, E5, E6, R3, R5, R6. repeat split; reflexivity.
Qed.

(** After the first SWP month, a month with an exhausted corpus pays
    nothing and leaves the corpus exhausted. *)
Lemma depleted_month (n : nat) :
  (sip_duration_months p < Z.of_nat n)%Z ->
  hybrid_swp_corpus (state_before p n) == 0 ->
  hybrid_swp_corpus (state_before p (S n)) == 0 /\
  Hybrid_SWPCorpus_EOM (record_of_month p n) == 0 /\
  Hybrid_SWPPayout (record_of_month p n) == 0.
Proof.
  intros Hn H0.
  assert (Hge : (sip_duration_months p <= Z.of_nat n)%Z) by lia.
  destruct (swp_record_shows_schedule n Hge) as (_ & _ & Rc).
  unfold record_of_month in *. rewrite state_before_S.
  destruct (swp_month_state p (state_before p n) _ Hge) as (_ & E2 & _).
  destruct (swp_month_record p (state_before p n) _ Hge)
    as (_ & R2 & R3 & _).
  destruct (swp_withdrawal_depleted p
              (swp_schedule p (state_before p n) (Z.of_nat n))) as (W1 & W2).
  { rewrite swp_schedule_keeps_corpus by lia. rewrite H0. lra. }
  rewrite E2, R2, R3, W1, W2. repeat split; reflexivity.
Qed.

Lemma depleted_forever (i j : nat) :
  (sip_duration_months p <= Z.of_nat i)%Z ->
  (i < j)%nat ->
  hybrid_swp_corpus (state_before p (S i)) == 0 ->
  hybrid_swp_corpus (state_before p j) == 0.
Proof.
  intros Hi Hij H0. induction j as [|j IH]; [lia|].
  destruct (Nat.eq_dec i j) as [->|Hne]; [exact H0|].
  apply depleted_month; [lia|]. apply IH. lia.
Qed.

Lemma transition_state_eq :
  transition_state p
  = swp_first_month p (state_before p (Z.to_nat (sip_duration_months p))).
Proof. apply swp_schedule_first. reflexivity. Qed.

(** The record of the first SWP month. *)
Lemma first_swp_month_record :
  (0 <= sip_duration_months p)%Z ->
  let r := record_of_month p (Z.to_nat (sip_duration_months p)) in
  MonthIndex r = sip_duration_months p /\
  SWP_Year r = 1%Z /\
  Target_SWP_Payout r
  = final_sip_corpus p * swp_initial_annual_withdrawal_rate p / 12 /\
  Hybrid_SWPPayout r = snd (swp_withdrawal p (transition_state p)) /\
  Hybrid_SWPCorpus_EOM r
  = hybrid_swp_corpus (fst (swp_withdrawal p (transition_state p))).
Proof.
  intros Hsip.
  assert (Em : Z.of_nat (Z.to_nat (sip_duration_months p))
               = sip_duration_months p) by lia.
  destruct (record_shows_state (Z.to_nat (sip_duration_months p)))
    as (E1 & _).
  split; [rewrite E1; exact Em|].
  unfold record_of_month. rewrite Em.
  destruct (swp_month_record p
              (state_before p (Z.to_nat (sip_duration_months p)))
              (sip_duration_months p) (Z.le_refl _))
    as (_ & R2 & R3 & _ & R5 & R6).
  fold (transition_state p) in R2, R3, R5, R6.
  rewrite R2, R3, R5, R6, transition_state_eq.
  repeat split; reflexivity.
Qed.

(** When the first monthly target is at least the grown corpus, the first
    SWP month leaves no corpus. *)
Lemma first_swp_month_exhausts :
  valid_params p ->
  1 + corpus_annual_growth_rate p / 12
  <= swp_initial_annual_withdrawal_rate p / 12 ->
  Hybrid_SWPCorpus_EOM (record_of_month p (Z.to_nat (sip_duration_months p)))
  == 0.
Proof.
  intros Hv Hrate.
  pose proof Hv as (_ & _ & _ & _ & _ & _ & Hsip).
  destruct first_swp_month_record as (_ & _ & _ & _ & Ec); [lia|].
  rewrite Ec. apply swp_withdrawal_exhausts.
  rewrite transition_state_eq.
  cbn [swp_first_month hybrid_swp_corpus current_target_swp_monthly_payout].
  destruct (state_inv_before (Z.to_nat (sip_duration_months p)) Hv)
    as (H0 & _).
  unfold monthly_corpus_growth_rate.
  set (c := hybrid_sip_corpus _) in *.
  set (w := swp_initial_annual_withdrawal_rate p / 12) in *.
  set (g := corpus_annual_growth_rate p / 12) in *.
  assert (Hprod : 0 <= c * (w - (1 + g)))
    by (apply Qmult_le_0_compat; lra).
  assert (E : c * swp_initial_annual_withdrawal_rate p / 12 == c * w)
    by (unfold w; field).
  rewrite E. lra.
Qed.

End Run.

(** ** The claims *)

Lemma growing_params_valid : valid_params growing_params.
Proof.
  unfold valid_params; simpl. repeat split; try lra; vm_compute; congruence.
Qed.

Lemma depleting_params_valid : valid_params depleting_params.
Proof.
  unfold valid_params; simpl. repeat split; try lra; vm_compute; congruence.
Qed.

(** With no SIP phase nothing is ever withdrawn: twelve records, each with
    a zero target, a zero payout and a hybrid income of the benefit. *)
Example zero_sip_run :
  map (fun r => (MonthIndex r, SWP_Year r,
                 Qeq_bool (Target_SWP_Payout r) 0,
                 Qeq_bool (Hybrid_SWPPayout r) 0,
                 Qeq_bool (Hybrid_TotalMonthlyIncome r) 10000))
    (calculate_policy_outcomes zero_sip_params)
  = map (fun m => (Z.of_nat m, 1%Z, true, true, true)) (seq 0 12).
Proof. vm_compute. reflexivity. Qed.

(** C6.  For every valid parameter set, every record of the returned
    sequence has [Hybrid_SWPCorpus_EOM >= 0]. *)
Theorem swp_corpus_never_negative (p : Params) :
  valid_params p ->
  Forall (fun r => 0 <= Hybrid_SWPCorpus_EOM r) (calculate_policy_outcomes p).
Proof.
  intros _. rewrite outcomes_trace. apply Forall_map, Forall_forall.
  intros n _. apply record_swp_corpus_nonneg.
Qed.

Lemma swp_corpus_never_negative_witness :
  valid_params depleting_params /\
  Forall (fun r => 0 <= Hybrid_SWPCorpus_EOM r)
    (calculate_policy_outcomes depleting_params).
Proof.
  split; [exact depleting_params_valid|].
  exact (swp_corpus_never_negative depleting_params depleting_params_valid).
Defined.

(** C7.  For every valid parameter set, [Primary_CumulativeIncome] and
    [Hybrid_CumulativeTotalIncome] do not decrease from the record at index
    [i] to the record at index [i + 1]. *)
Theorem cumulative_incomes_non_decreasing (p : Params) (i : nat) :
  valid_params p ->
  (Z.of_nat (S i) < total_months p)%Z ->
  exists r1 r2,
    nth_error (calculate_policy_outcomes p) i = Some r1 /\
    nth_error (calculate_policy_outcomes p) (S i) = Some r2 /\
    Primary_CumulativeIncome r1 <= Primary_CumulativeIncome r2 /\
    Hybrid_CumulativeTotalIncome r1 <= Hybrid_CumulativeTotalIncome r2.
Proof.
  intros Hv Hi.
  exists (record_of_month p i), (record_of_month p (S i)).
  split; [apply outcomes_nth; lia|].
  split; [now apply outcomes_nth|].
  destruct (record_shows_state p i) as (_ & P1 & H1 & _).
  destruct (record_shows_state p (S i)) as (_ & P2 & H2 & _).
  rewrite P1, P2, H1, H2, (state_before_S p (S i)).
  apply cumulative_incomes_step; [exact Hv|].
  now apply state_inv_before.
Qed.

Lemma cumulative_incomes_non_decreasing_witness :
  valid_params growing_params /\
  exists r1 r2,
    nth_error (calculate_policy_outcomes growing_params) 11 = Some r1 /\
    nth_error (calculate_policy_outcomes growing_params) 12 = Some r2 /\
    Primary_CumulativeIncome r1 <= Primary_CumulativeIncome r2 /\
    Hybrid_CumulativeTotalIncome r1 <= Hybrid_CumulativeTotalIncome r2.
Proof.
  split; [exact growing_params_valid|].
  apply (cumulative_incomes_non_decreasing growing_params 11
           growing_params_valid).
  vm_compute; reflexivity.
Defined.

(** C10.  For every valid parameter set, every record has
    [Hybrid_CumulativeTotalIncome >= Primary_CumulativeIncome]. *)
Theorem hybrid_income_dominates_primary (p : Params) :
  valid_params p ->
  Forall
    (fun r => Primary_CumulativeIncome r <= Hybrid_CumulativeTotalIncome r)
    (calculate_policy_outcomes p).
Proof.
  intros Hv. rewrite outcomes_trace. apply Forall_map, Forall_forall.
  intros n _.
  destruct (record_shows_state p n) as (_ & P1 & H1 & _).
  rewrite P1, H1.
  destruct (state_inv_before p (S n) Hv) as (_ & _ & _ & _ & H). exact H.
Qed.

Lemma hybrid_income_dominates_primary_witness :
  valid_params growing_params /\
  Forall
    (fun r => Primary_CumulativeIncome r <= Hybrid_CumulativeTotalIncome r)
    (calculate_policy_outcomes growing_params).
Proof.
  split; [exact growing_params_valid|].
  exact (hybrid_income_dominates_primary growing_params growing_params_valid).
Defined.

(** C9.  For every valid parameter set, [Hybrid_SIPCorpus_EOM] increases
    strictly from record to record while [MonthIndex < sip_duration_months];
    every record with [MonthIndex >= sip_duration_months] carries the same
    value, the corpus at the end of the last SIP month, which is also what
    the record of that last SIP month shows. *)
Theorem sip_corpus_increasing_then_frozen (p : Params) :
  valid_params p ->
  (forall i : nat,
     (Z.of_nat (S i) < sip_duration_months p)%Z ->
     exists r1 r2,
       nth_error (calculate_policy_outcomes p) i = Some r1 /\
       nth_error (calculate_policy_outcomes p) (S i) = Some r2 /\
       Hybrid_SIPCorpus_EOM r1 < Hybrid_SIPCorpus_EOM r2) /\
  (forall m : nat,
     (sip_duration_months p <= Z.of_nat m < total_months p)%Z ->
     exists r,
       nth_error (calculate_policy_outcomes p) m = Some r /\
       Hybrid_SIPCorpus_EOM r = final_sip_corpus p) /\
  (forall k : nat,
     sip_duration_months p = Z.of_nat (S k) ->
     exists r,
       nth_error (calculate_policy_outcomes p) k = Some r /\
       Hybrid_SIPCorpus_EOM r = final_sip_corpus p).
Proof.
  intros Hv. pose proof Hv as (_ & Hb & Hr & _ & _ & _ & Hsip).
  repeat split.
  - intros i Hi.
    exists (record_of_month p i), (record_of_month p (S i)).
    split; [apply outcomes_nth; lia|].
    split; [apply outcomes_nth; lia|].
    destruct (record_shows_state p i) as (_ & _ & _ & E1).
    destruct (record_shows_state p (S i)) as (_ & _ & _ & E2).
    rewrite E1, E2, (sip_corpus_step p (S i) Hi).
    destruct (state_inv_before p (S i) Hv) as (H0 & _).
    assert (0 <= sip_annual_return_rate p / 12)
      by (apply Qle_shift_div_l; lra).
    pose proof (Qmult_le_0_compat _ _ H0 H).
    lra.
  - intros m Hm. exists (record_of_month p m).
    split; [apply outcomes_nth; lia|].
    destruct (record_shows_state p m) as (_ & _ & _ & E).
    rewrite E. apply sip_corpus_frozen. lia.
  - intros k Hk. exists (record_of_month p k).
    split; [apply outcomes_nth; lia|].
    destruct (record_shows_state p k) as (_ & _ & _ & E).
    rewrite E. apply sip_corpus_frozen. lia.
Qed.

Lemma sip_corpus_increasing_then_frozen_witness :
  valid_params growing_params /\
  (exists r1 r2,
     nth_error (calculate_policy_outcomes growing_params) 10 = Some r1 /\
     nth_error (calculate_policy_outcomes growing_params) 11 = Some r2 /\
     Hybrid_SIPCorpus_EOM r1 < Hybrid_SIPCorpus_EOM r2) /\
  (exists r l,
     nth_error (calculate_policy_outcomes growing_params) 35 = Some r /\
     nth_error (calculate_policy_outcomes growing_params) 11 = Some l /\
     Hybrid_SIPCorpus_EOM r = Hybrid_SIPCorpus_EOM l).
Proof.
  split; [exact growing_params_valid|].
  destruct (sip_corpus_increasing_then_frozen growing_params
              growing_params_valid) as (Hinc & Hfrozen & Hlast).
  split.
  - apply (Hinc 10%nat). vm_compute; reflexivity.
  - destruct (Hfrozen 35%nat) as (r & Hr & Er);
      [split; vm_compute; congruence|].
    destruct (Hlast 11%nat) as (l & Hl & El); [reflexivity|].
    exists r, l. split; [exact Hr|]. split; [exact Hl|].
    rewrite Er, El. reflexivity.
Defined.

(** C3.  For every valid parameter set whose SIP phase ends before the
    policy does, in the month [m = sip_duration_months], after the transfer
    and before the withdrawal, the SWP corpus is exactly the SIP corpus left
    by month [m - 1] (the value that month's record shows), the year counter
    is 1, and the target monthly payout is that corpus times
    [swp_initial_annual_withdrawal_rate / 12], also kept as the last
    scheduled payout; the record of month [m] shows that counter and target,
    and its payout and corpus are those of the withdrawal from that state.
    In any other month the schedule block leaves the SWP corpus alone. *)
Theorem transition_month (p : Params) :
  valid_params p ->
  (sip_duration_months p < total_months p)%Z ->
  hybrid_swp_corpus (transition_state p) = final_sip_corpus p /\
  swp_year_counter (transition_state p) = 1%Z /\
  current_target_swp_monthly_payout (transition_state p)
  = final_sip_corpus p * swp_initial_annual_withdrawal_rate p / 12 /\
  scheduled_last_year_swp_monthly_payout (transition_state p)
  = current_target_swp_monthly_payout (transition_state p) /\
  (exists r,
     nth_error (calculate_policy_outcomes p)
       (Z.to_nat (sip_duration_months p)) = Some r /\
     MonthIndex r = sip_duration_months p /\
     SWP_Year r = 1%Z /\
     Target_SWP_Payout r
     = final_sip_corpus p * swp_initial_annual_withdrawal_rate p / 12 /\
     Hybrid_SWPPayout r = snd (swp_withdrawal p (transition_state p)) /\
     Hybrid_SWPCorpus_EOM r
     = hybrid_swp_corpus (fst (swp_withdrawal p (transition_state p)))) /\
  (forall k : nat,
     sip_duration_months p = Z.of_nat (S k) ->
     exists r',
       nth_error (calculate_policy_outcomes p) k = Some r' /\
       Hybrid_SIPCorpus_EOM r' = final_sip_corpus p) /\
  (forall (s : LoopState) (m : Z),
     m <> sip_duration_months p ->
     hybrid_swp_corpus (swp_schedule p s m) = hybrid_swp_corpus s).
Proof.
  intros Hv Hlt. pose proof Hv as (_ & _ & _ & _ & _ & _ & Hsip).
  pose proof (transition_state_eq p) as Et.
  split; [rewrite Et; reflexivity|].
  split; [rewrite Et; reflexivity|].
  split; [rewrite Et; reflexivity|].
  split; [rewrite Et; reflexivity|].
  split.
  { exists (record_of_month p (Z.to_nat (sip_duration_months p))).
    split; [apply outcomes_nth; lia|].
    apply first_swp_month_record. lia. }
  split.
  { intros k Hk. exists (record_of_month p k).
    split; [apply outcomes_nth; lia|].
    destruct (record_shows_state p k) as (_ & _ & _ & E).
    rewrite E. apply sip_corpus_frozen. lia. }
  intros s m Hm. now apply swp_schedule_keeps_corpus.
Qed.

Lemma transition_month_witness :
  valid_params growing_params /\
  exists r l,
    nth_error (calculate_policy_outcomes growing_params) 12 = Some r /\
    nth_error (calculate_policy_outcomes growing_params) 11 = Some l /\
    SWP_Year r = 1%Z /\
    Target_SWP_Payout r = Hybrid_SIPCorpus_EOM l * (6 # 100) / 12 /\
    hybrid_swp_corpus (transition_state growing_params)
    = Hybrid_SIPCorpus_EOM l.
Proof.
  split; [exact growing_params_valid|].
  destruct (transition_month growing_params growing_params_valid)
    as (Hc & _ & _ & _ & (r & Hr & _ & Hy & Ht & _) & Hprev & _);
    [vm_compute; reflexivity|].
  destruct (Hprev 11%nat) as (l & Hl & El); [reflexivity|].
  exists r, l.
  split; [exact Hr|]. split; [exact Hl|]. split; [exact Hy|].
  rewrite El. split; [exact Ht | exact Hc].
Defined.

(** C4.  For every valid parameter set, from one record of the SWP phase to
    the next, [SWP_Year] and [Target_SWP_Payout] change only in a month [m]
    with [m - sip_duration_months > 0] and
    [(m - sip_duration_months) % 12 == 0]: then the counter grows by 1 and
    the target is the last scheduled payout, which is the previous target,
    times [1 + swp_annual_payout_growth_rate]; in any other later month both
    are kept.  The first SWP month itself sets the counter to 1 and the
    target to the first-year payout, without escalation. *)
Theorem payout_escalation (p : Params) :
  valid_params p ->
  (forall k : nat,
     (sip_duration_months p <= Z.of_nat k)%Z ->
     (Z.of_nat (S k) < total_months p)%Z ->
     exists prev cur,
       nth_error (calculate_policy_outcomes p) k = Some prev /\
       nth_error (calculate_policy_outcomes p) (S k) = Some cur /\
       Target_SWP_Payout prev
       = scheduled_last_year_swp_monthly_payout (state_before p (S k)) /\
       ((0 < Z.of_nat (S k) - sip_duration_months p)%Z /\
        ((Z.of_nat (S k) - sip_duration_months p) mod 12 = 0)%Z ->
        SWP_Year cur = (SWP_Year prev + 1)%Z /\
        Target_SWP_Payout cur
        = Target_SWP_Payout prev * (1 + swp_annual_payout_growth_rate p)) /\
       (~ ((0 < Z.of_nat (S k) - sip_duration_months p)%Z /\
           ((Z.of_nat (S k) - sip_duration_months p) mod 12 = 0)%Z) ->
        SWP_Year cur = SWP_Year prev /\
        Target_SWP_Payout cur = Target_SWP_Payout prev)) /\
  ((sip_duration_months p < total_months p)%Z ->
   escalation_due p (sip_duration_months p) = false /\
   exists r,
     nth_error (calculate_policy_outcomes p)
       (Z.to_nat (sip_duration_months p)) = Some r /\
     SWP_Year r = 1%Z /\
     Target_SWP_Payout r
     = final_sip_corpus p * swp_initial_annual_withdrawal_rate p / 12).
Proof.
  intros Hv. split.
  - intros k Hk Htot.
    exists (record_of_month p k), (record_of_month p (S k)).
    split; [apply outcomes_nth; lia|].
    split; [now apply outcomes_nth|].
    destruct (swp_record_shows_schedule p k Hk) as (Y1 & T1 & _).
    destruct (state_inv_before p (S k) Hv) as (_ & _ & _ & Hsch & _).
    split; [rewrite T1, Hsch; reflexivity|].
    assert (Hge : (sip_duration_months p <= Z.of_nat (S k))%Z) by lia.
    destruct (swp_month_record p (state_before p (S k)) _ Hge)
      as (_ & _ & _ & _ & R5 & R6).
    fold (record_of_month p (S k)) in R5, R6.
    rewrite R5, R6, Y1, T1, swp_schedule_later by lia.
    split.
    + intros Hdue. apply escalation_due_iff in Hdue. rewrite Hdue.
      simpl. rewrite Hsch. split; reflexivity.
    + intros Hnot.
      destruct (escalation_due p (Z.of_nat (S k))) eqn:E.
      * apply escalation_due_iff in E. contradiction.
      * split; reflexivity.
  - intros Hlt.
    split; [now apply escalation_not_due_at_start|].
    destruct Hv as (_ & _ & _ & _ & _ & _ & Hsip).
    exists (record_of_month p (Z.to_nat (sip_duration_months p))).
    split; [apply outcomes_nth; lia|].
    destruct (first_swp_month_record p) as (_ & Hy & Ht & _); [lia|].
    split; [exact Hy | exact Ht].
Qed.

Lemma payout_escalation_witness :
  valid_params growing_params /\
  (exists prev cur,
     nth_error (calculate_policy_outcomes growing_params) 23 = Some prev /\
     nth_error (calculate_policy_outcomes growing_params) 24 = Some cur /\
     SWP_Year cur = (SWP_Year prev + 1)%Z /\
     Target_SWP_Payout cur = Target_SWP_Payout prev * (1 + (5 # 100))) /\
  (exists prev cur,
     nth_error (calculate_policy_outcomes growing_params) 12 = Some prev /\
     nth_error (calculate_policy_outcomes growing_params) 13 = Some cur /\
     SWP_Year prev = 1%Z /\
     SWP_Year cur = SWP_Year prev /\
     Target_SWP_Payout cur = Target_SWP_Payout prev).
Proof.
  split; [exact growing_params_valid|].
  destruct (payout_escalation growing_params growing_params_valid)
    as (Hnext & Hfirst).
  split.
  - destruct (Hnext 23%nat) as (prev & cur & Hp & Hc & _ & Hdue & _);
      [vm_compute; congruence | vm_compute; reflexivity |].
    exists prev, cur. split; [exact Hp|]. split; [exact Hc|].
    apply Hdue. split; vm_compute; reflexivity.
  - destruct (Hnext 12%nat) as (prev & cur & Hp & Hc & _ & _ & Hnot);
      [vm_compute; congruence | vm_compute; reflexivity |].
    destruct Hfirst as (_ & r & Hr & Hy & _); [vm_compute; reflexivity|].
    exists prev, cur. split; [exact Hp|]. split; [exact Hc|].
    split.
    + change (Z.to_nat (sip_duration_months growing_params)) with 12%nat in Hr.
      rewrite Hp in Hr. injection Hr as <-. exact Hy.
    + apply Hnot. intros (_ & Hmod). vm_compute in Hmod. discriminate.
Defined.

(** C5.  For every valid parameter set, if the record of a month [i] of the
    SWP phase has [Hybrid_SWPCorpus_EOM] equal to 0, then every later record
    [j] has [Hybrid_SWPCorpus_EOM == 0] and [Hybrid_SWPPayout == 0], also in
    the months in which the escalation block runs. *)
Theorem depletion_is_terminal (p : Params) (i j : nat) :
  valid_params p ->
  (sip_duration_months p <= Z.of_nat i)%Z ->
  (i < j)%nat ->
  (Z.of_nat j < total_months p)%Z ->
  (exists ri,
     nth_error (calculate_policy_outcomes p) i = Some ri /\
     Hybrid_SWPCorpus_EOM ri == 0) ->
  exists rj,
    nth_error (calculate_policy_outcomes p) j = Some rj /\
    Hybrid_SWPCorpus_EOM rj == 0 /\
    Hybrid_SWPPayout rj == 0.
Proof.
  intros _ Hi Hij Hj (ri & Hri & H0).
  rewrite outcomes_nth in Hri by lia. injection Hri as <-.
  destruct (swp_record_shows_schedule p i Hi) as (_ & _ & Ec).
  rewrite Ec in H0.
  exists (record_of_month p j). split; [now apply outcomes_nth|].
  apply depleted_month; [lia|].
  now apply (depleted_forever p i j).
Qed.

Lemma depletion_is_terminal_witness :
  valid_params depleting_params /\
  escalation_due depleting_params 24 = true /\
  (exists ri,
     nth_error (calculate_policy_outcomes depleting_params) 12 = Some ri /\
     Hybrid_SWPCorpus_EOM ri == 0) /\
  (exists rj,
     nth_error (calculate_policy_outcomes depleting_params) 24 = Some rj /\
     Hybrid_SWPCorpus_EOM rj == 0 /\
     Hybrid_SWPPayout rj == 0).
Proof.
  split; [exact depleting_params_valid|].
  split; [reflexivity|].
  assert (Hi : exists ri,
             nth_error (calculate_policy_outcomes depleting_params) 12
             = Some ri /\
             Hybrid_SWPCorpus_EOM ri == 0).
  { exists (record_of_month depleting_params 12).
    split; [apply outcomes_nth; vm_compute; reflexivity|].
    apply (first_swp_month_exhausts depleting_params depleting_params_valid).
    vm_compute. congruence. }
  split; [exact Hi|].
  apply (depletion_is_terminal depleting_params 12 24
           depleting_params_valid).
  - vm_compute. congruence.
  - apply Nat.ltb_lt. vm_compute. reflexivity.
  - vm_compute. reflexivity.
  - exact Hi.
Defined.

(** C2, the claim as stated fails: a policy that ends before it starts
    ([total_months = -12]) is not rejected, the call returns the empty
    sequence; a SIP phase longer than the policy (24 months against 12) is
    not rejected either, the call returns 12 records. *)
Lemma nonsensical_params_not_rejected :
  nonsensical_params backwards_params /\
  call_calculate_policy_outcomes backwards_params = Returned [] /\
  call_calculate_policy_outcomes backwards_params <> Raised InvalidParameters /\
  nonsensical_params overlong_sip_params /\
  (exists rows,
     call_calculate_policy_outcomes overlong_sip_params = Returned rows /\
     length rows = 12%nat) /\
  call_calculate_policy_outcomes overlong_sip_params
  <> Raised InvalidParameters.
Proof.
  split; [left; vm_compute; congruence|].
  split; [reflexivity|].
  split; [discriminate|].
  split; [right; right; left; vm_compute; reflexivity|].
  split; [|discriminate].
  exists (calculate_policy_outcomes overlong_sip_params).
  split; [reflexivity|]. rewrite outcomes_length. reflexivity.
Qed.

(** C2, amended.  On a parameter set whose derived quantities are
    nonsensical the call raises nothing: it returns the simulated sequence,
    of [max(total_months, 0)] records, the empty one when
    [total_months <= 0]. *)
Theorem nonsensical_params_are_simulated (p : Params) :
  nonsensical_params p ->
  exists rows,
    call_calculate_policy_outcomes p = Returned rows /\
    Z.of_nat (length rows) = Z.max 0 (total_months p) /\
    ((total_months p <= 0)%Z -> rows = []).
Proof.
  intros _. exists (calculate_policy_outcomes p).
  split; [reflexivity|].
  split; [rewrite outcomes_length; lia|].
  intros H. apply length_zero_iff_nil. rewrite outcomes_length. lia.
Qed.

Lemma nonsensical_params_are_simulated_witness :
  nonsensical_params backwards_params /\
  exists rows,
    call_calculate_policy_outcomes backwards_params = Returned rows /\
    Z.of_nat (length rows) = 0%Z /\
    rows = [].
Proof.
  assert (Hn : nonsensical_params backwards_params)
    by (left; vm_compute; congruence).
  split; [exact Hn|].
  destruct (nonsensical_params_are_simulated backwards_params Hn)
    as (rows & Hr & Hl & He).
  exists rows. split; [exact Hr|]. split; [exact Hl|].
  apply He. vm_compute. congruence.
Defined.

(** * The remaining columns and the script around the engine *)

(** ** Calendar columns *)

Section Calendar.

Variable p : Params.

(** The columns every month fills from the month index and the benefit. *)
Lemma month_calendar (s : LoopState) (m : Z) :
  let r := snd (loop_body p s m) in
  Age r = inject_Z (current_age p) + inject_Z m / 12 /\
  PolicyYear r = (m / 12 + 1)%Z /\
  MonthInPolicyYear r = (m mod 12 + 1)%Z /\
  Primary_MonthlyIncome r = monthly_survival_benefit p /\
  Hybrid_SurvivalBenefitReceived r = monthly_survival_benefit p.
Proof.
  unfold loop_body.
  destruct (hybrid_month p s m) as [s1 [[[inv pay] eom] tot]].
  simpl. repeat split; reflexivity.
Qed.

Lemma month_index_of_record (n : nat) :
  MonthIndex (record_of_month p n) = Z.of_nat n.
Proof. now destruct (record_shows_state p n) as (E & _). Qed.

End Calendar.

(** X1.  The record at index [i] has [MonthIndex = i]; its policy year and
    month in the year are [i // 12 + 1] and [i % 12 + 1], the month is
    between 1 and 12, the year between 1 and the policy duration, and the
    month index is recovered from the two. *)
Theorem record_calendar (p : Params) (i : nat) :
  (Z.of_nat i < total_months p)%Z ->
  exists r,
    nth_error (calculate_policy_outcomes p) i = Some r /\
    MonthIndex r = Z.of_nat i /\
    PolicyYear r = (Z.of_nat i / 12 + 1)%Z /\
    MonthInPolicyYear r = (Z.of_nat i mod 12 + 1)%Z /\
    (1 <= MonthInPolicyYear r <= 12)%Z /\
    (1 <= PolicyYear r <= policy_duration_years p)%Z /\
    MonthIndex r = ((PolicyYear r - 1) * 12 + (MonthInPolicyYear r - 1))%Z.
Proof.
  intros Hi. exists (record_of_month p i).
  split; [now apply outcomes_nth|].
  pose proof (month_index_of_record p i) as Em.
  destruct (month_calendar p (state_before p i) (Z.of_nat i))
    as (_ & Ey & Emy & _).
  fold (record_of_month p i) in Ey, Emy.
  rewrite Em, Ey, Emy. unfold total_months in Hi.
  Z.div_mod_to_equations. repeat split; lia.
Qed.

Lemma record_calendar_witness :
  exists r,
    nth_error (calculate_policy_outcomes growing_params) 25 = Some r /\
    MonthIndex r = 25%Z /\
    PolicyYear r = 3%Z /\
    MonthInPolicyYear r = 2%Z.
Proof.
  destruct (record_calendar growing_params 25)
    as (r & Hr & Em & Ey & Emy & _); [vm_compute; reflexivity|].
  exists r. split; [exact Hr|]. split; [exact Em|].
  split; [exact Ey | exact Emy].
Defined.

(** X2.  The record at index [i] has [Age == current_age + i / 12], which is
    at least the current age and below the policy end age. *)
Theorem record_age (p : Params) (i : nat) :
  (Z.of_nat i < total_months p)%Z ->
  exists r,
    nth_error (calculate_policy_outcomes p) i = Some r /\
    Age r == inject_Z (current_age p) + inject_Z (Z.of_nat i) / 12 /\
    inject_Z (current_age p) <= Age r /\
    Age r < inject_Z (policy_end_age p).
Proof.
  intros Hi. exists (record_of_month p i).
  split; [now apply outcomes_nth|].
  destruct (month_calendar p (state_before p i) (Z.of_nat i)) as (Ea & _).
  fold (record_of_month p i) in Ea. rewrite Ea.
  split; [reflexivity|].
  assert (H0 : 0 <= inject_Z (Z.of_nat i) / 12).
  { apply Qle_shift_div_l; [lra|]. rewrite Qmult_0_l.
    change 0 with (inject_Z 0). rewrite <- Zle_Qle. lia. }
  assert (H1 : inject_Z (Z.of_nat i) / 12
               < inject_Z (policy_end_age p - current_age p)).
  { apply Qlt_shift_div_r; [lra|].
    change 12 with (inject_Z 12). rewrite <- inject_Z_mult, <- Zlt_Qlt.
    exact Hi. }
  unfold Z.sub in H1. rewrite inject_Z_plus, inject_Z_opp in H1.
  split; lra.
Qed.

Lemma record_age_witness :
  exists r,
    nth_error (calculate_policy_outcomes growing_params) 18 = Some r /\
    Age r == 41 + 1 / 2 /\
    40 <= Age r /\
    Age r < 43.
Proof.
  destruct (record_age growing_params 18)
    as (r & Hr & Ea & Hlo & Hhi); [vm_compute; reflexivity|].
  exists r. split; [exact Hr|].
  split; [rewrite Ea; vm_compute; reflexivity|].
  split; [exact Hlo | exact Hhi].
Defined.

(** ** The withdrawal, month by month *)

Section Withdrawal.

Variable p : Params.

(** The payout never exceeds a non-negative target. *)
Lemma swp_withdrawal_payout_le_target (s : LoopState) :
  0 <= current_target_swp_monthly_payout s ->
  snd (swp_withdrawal p s) <= current_target_swp_monthly_payout s.
Proof.
  intros Ht. unfold swp_withdrawal.
  destruct (Qle_bool (hybrid_swp_corpus s) 0); simpl; [exact Ht|].
  destruct (Qle_bool _ (current_target_swp_monthly_payout s)) eqn:E; simpl.
  - now apply Qle_bool_true.
  - lra.
Qed.

(** A month that leaves corpus has paid the target in full. *)
Lemma swp_withdrawal_full_target (s : LoopState) :
  0 < hybrid_swp_corpus (fst (swp_withdrawal p s)) ->
  snd (swp_withdrawal p s) = current_target_swp_monthly_payout s.
Proof.
  unfold swp_withdrawal.
  destruct (Qle_bool (hybrid_swp_corpus s) 0); simpl; [lra|].
  destruct (Qle_bool _ (current_target_swp_monthly_payout s)); simpl; [lra|].
  reflexivity.
Qed.

(** With a non-negative corpus, growth rate and target, the month leaves at
    most the grown corpus. *)
Lemma swp_withdrawal_corpus_le_grown (s : LoopState) :
  0 <= hybrid_swp_corpus s ->
  0 <= corpus_annual_growth_rate p ->
  0 <= current_target_swp_monthly_payout s ->
  hybrid_swp_corpus (fst (swp_withdrawal p s))
  <= hybrid_swp_corpus s
     + hybrid_swp_corpus s * (corpus_annual_growth_rate p / 12).
Proof.
  intros Hc Hg Ht.
  assert (Hm : 0 <= corpus_annual_growth_rate p / 12)
    by (apply Qle_shift_div_l; lra).
  pose proof (Qmult_le_0_compat _ _ Hc Hm) as Hi.
  unfold swp_withdrawal, monthly_corpus_growth_rate.
  destruct (Qle_bool (hybrid_swp_corpus s) 0); simpl; [lra|].
  destruct (Qle_bool _ (current_target_swp_monthly_payout s)); simpl; [lra|].
  destruct (Qlt_bool _ 0); simpl; lra.
Qed.

(** The last scheduled payout is the current target all along the run. *)
Lemma scheduled_is_target (n : nat) :
  scheduled_last_year_swp_monthly_payout (state_before p n)
  = current_target_swp_monthly_payout (state_before p n).
Proof.
  induction n as [|n IH]; [reflexivity|].
  rewrite state_before_S.
  destruct (Z_lt_le_dec (Z.of_nat n) (sip_duration_months p)) as [Hlt|Hge].
  - destruct (sip_month_state p (state_before p n) _ Hlt)
      as (_ & _ & _ & E4 & _ & E6).
    rewrite E4, E6. exact IH.
  - destruct (swp_month_state p (state_before p n) _ Hge)
      as (_ & _ & _ & E4 & _ & E6).
    rewrite E4, E6. now apply swp_schedule_scheduled.
Qed.

(** What the record of a month of the SWP phase shows of the withdrawal. *)
Lemma swp_record_withdrawal (n : nat) :
  (sip_duration_months p <= Z.of_nat n)%Z ->
  let s1 := swp_schedule p (state_before p n) (Z.of_nat n) in
  Hybrid_SWPPayout (record_of_month p n) = snd (swp_withdrawal p s1) /\
  Hybrid_SWPCorpus_EOM (record_of_month p n)
  = hybrid_swp_corpus (fst (swp_withdrawal p s1)) /\
  Target_SWP_Payout (record_of_month p n)
  = current_target_swp_monthly_payout s1 /\
  Hybrid_TotalMonthlyIncome (record_of_month p n)
  = monthly_survival_benefit p + snd (swp_withdrawal p s1).
Proof.
  intros H. unfold record_of_month.
  destruct (swp_month_record p (state_before p n) _ H)
    as (_ & R2 & R3 & R4 & _ & R6).
  repeat split; assumption.
Qed.

End Withdrawal.

(** X3.  For every valid parameter set, every record has a payout that is
    not negative and not above the record's target payout. *)
Theorem payout_within_target (p : Params) :
  valid_params p ->
  Forall
    (fun r => 0 <= Hybrid_SWPPayout r /\
              Hybrid_SWPPayout r <= Target_SWP_Payout r)
    (calculate_policy_outcomes p).
Proof.
  intros Hv. pose proof Hv as (_ & _ & _ & Hc & Hw & Hg & _).
  rewrite outcomes_trace. apply Forall_map, Forall_forall. intros n _.
  destruct (Z_lt_le_dec (Z.of_nat n) (sip_duration_months p)) as [Hlt|Hge].
  - destruct (sip_month_record p (state_before p n) _ Hlt)
      as (_ & E2 & _ & _ & _ & E6).
    fold (record_of_month p n) in E2, E6. rewrite E2, E6. split; lra.
  - destruct (swp_record_withdrawal p n Hge) as (E1 & _ & E3 & _).
    rewrite E1, E3.
    pose proof (swp_schedule_target_nonneg p (state_before p n) (Z.of_nat n)
                  Hw Hg (state_inv_before p n Hv)) as Ht.
    split.
    + now apply swp_withdrawal_payout_nonneg.
    + now apply swp_withdrawal_payout_le_target.
Qed.

Lemma payout_within_target_witness :
  valid_params growing_params /\
  Forall
    (fun r => 0 <= Hybrid_SWPPayout r /\
              Hybrid_SWPPayout r <= Target_SWP_Payout r)
    (calculate_policy_outcomes growing_params).
Proof.
  split; [exact growing_params_valid|].
  exact (payout_within_target growing_params growing_params_valid).
Defined.

(** X4.  Whatever the parameters, a record that shows a positive SWP corpus
    at the end of the month shows a payout equal to the target: the payout
    falls short of the target only in a month that leaves no corpus. *)
Theorem full_target_while_corpus_remains (p : Params) :
  Forall
    (fun r => 0 < Hybrid_SWPCorpus_EOM r ->
              Hybrid_SWPPayout r = Target_SWP_Payout r)
    (calculate_policy_outcomes p).
Proof.
  rewrite outcomes_trace. apply Forall_map, Forall_forall. intros n _.
  destruct (Z_lt_le_dec (Z.of_nat n) (sip_duration_months p)) as [Hlt|Hge].
  - destruct (sip_month_record p (state_before p n) _ Hlt)
      as (_ & _ & E3 & _).
    fold (record_of_month p n) in E3. rewrite E3. lra.
  - destruct (swp_record_withdrawal p n Hge) as (E1 & E2 & E3 & _).
    rewrite E1, E2, E3. apply swp_withdrawal_full_target.
Qed.

(** X5.  For every valid parameter set, from one record of the SWP phase to
    the next the SWP corpus grows by at most one month of interest: the
    corpus of the second record is at most the corpus of the first plus that
    corpus times [corpus_annual_growth_rate / 12]. *)
Theorem swp_corpus_growth_bounded (p : Params) (k : nat) :
  valid_params p ->
  (sip_duration_months p <= Z.of_nat k)%Z ->
  (Z.of_nat (S k) < total_months p)%Z ->
  exists prev cur,
    nth_error (calculate_policy_outcomes p) k = Some prev /\
    nth_error (calculate_policy_outcomes p) (S k) = Some cur /\
    Hybrid_SWPCorpus_EOM cur
    <= Hybrid_SWPCorpus_EOM prev
       + Hybrid_SWPCorpus_EOM prev * (corpus_annual_growth_rate p / 12).
Proof.
  intros Hv Hk Htot. pose proof Hv as (_ & _ & _ & Hc & Hw & Hg & _).
  exists (record_of_month p k), (record_of_month p (S k)).
  split; [apply outcomes_nth; lia|].
  split; [now apply outcomes_nth|].
  destruct (swp_record_shows_schedule p k Hk) as (_ & _ & Ec).
  assert (Hge : (sip_duration_months p <= Z.of_nat (S k))%Z) by lia.
  destruct (swp_record_withdrawal p (S k) Hge) as (_ & E2 & _).
  destruct (state_inv_before p (S k) Hv) as (_ & H1 & _).
  pose proof (swp_schedule_target_nonneg p (state_before p (S k))
                (Z.of_nat (S k)) Hw Hg (state_inv_before p (S k) Hv)) as Ht.
  pose proof (swp_withdrawal_corpus_le_grown p
                (swp_schedule p (state_before p (S k)) (Z.of_nat (S k))))
    as Hb.
  rewrite swp_schedule_keeps_corpus in Hb by lia.
  rewrite Ec, E2. exact (Hb H1 Hc Ht).
Qed.

Lemma swp_corpus_growth_bounded_witness :
  valid_params growing_params /\
  exists prev cur,
    nth_error (calculate_policy_outcomes growing_params) 12 = Some prev /\
    nth_error (calculate_policy_outcomes growing_params) 13 = Some cur /\
    Hybrid_SWPCorpus_EOM cur
    <= Hybrid_SWPCorpus_EOM prev
       + Hybrid_SWPCorpus_EOM prev * ((12 # 100) / 12).
Proof.
  split; [exact growing_params_valid|].
  apply (swp_corpus_growth_bounded growing_params 12 growing_params_valid).
  - vm_compute. congruence.
  - vm_compute. reflexivity.
Defined.

(** ** The year counter and the SIP corpus along the run *)

Section ClosedForms.

Variable p : Params.

(** The state left by a month of the SWP phase: the year counter counts the
    started years of the phase. *)
Lemma swp_schedule_closed_form (n : nat) :
  (0 <= sip_duration_months p <= Z.of_nat n)%Z ->
  swp_year_counter (state_before p (S n))
  = ((Z.of_nat n - sip_duration_months p) / 12 + 1)%Z.
Proof.
  induction n as [|n IH]; intros Hn.
  - rewrite state_before_S.
    destruct (swp_month_state p (state_before p 0) (Z.of_nat 0))
      as (_ & _ & _ & _ & E5 & _); [lia|].
    rewrite E5, swp_schedule_first by lia.
    replace (sip_duration_months p) with 0%Z by lia. reflexivity.
  - rewrite state_before_S.
    destruct (swp_month_state p (state_before p (S n)) (Z.of_nat (S n)))
      as (_ & _ & _ & _ & E5 & _); [lia|].
    rewrite E5.
    destruct (Z.eq_dec (Z.of_nat (S n)) (sip_duration_months p)) as [Heq|Hne].
    + rewrite swp_schedule_first by exact Heq.
      rewrite <- Heq, Z.sub_diag. reflexivity.
    + specialize (IH ltac:(lia)).
      rewrite swp_schedule_later by exact Hne.
      destruct (escalation_due p (Z.of_nat (S n))) eqn:E.
      * apply escalation_due_iff in E. destruct E as (_ & Emod).
        cbn [swp_escalation swp_year_counter]. rewrite IH.
        Z.div_mod_to_equations. lia.
      * assert (Hnot : ((Z.of_nat (S n) - sip_duration_months p) mod 12
                        <> 0)%Z).
        { intros Hmod.
          assert (escalation_due p (Z.of_nat (S n)) = true)
            by (apply escalation_due_iff; split; [lia | exact Hmod]).
          congruence. }
        rewrite IH. Z.div_mod_to_equations. lia.
Qed.

(** During the SIP phase, with a non-negative benefit and rate, the SIP
    corpus is at least the primary total, the benefits received so far, and
    equal to it when the rate is zero. *)
Lemma sip_corpus_dominates_primary (n : nat) :
  0 <= monthly_survival_benefit p ->
  0 <= sip_annual_return_rate p ->
  (Z.of_nat n <= sip_duration_months p)%Z ->
  0 <= primary_cumulative_income (state_before p n) /\
  primary_cumulative_income (state_before p n)
  <= hybrid_sip_corpus (state_before p n) /\
  (sip_annual_return_rate p == 0 ->
   hybrid_sip_corpus (state_before p n)
   == primary_cumulative_income (state_before p n)).
Proof.
  intros Hb Hr. induction n as [|n IH]; intros Hn.
  - rewrite state_before_0. unfold initial_state; simpl.
    split; [lra|]. split; [lra | intros _; reflexivity].
  - destruct IH as (IH0 & IHle & IHeq); [lia|].
    rewrite state_before_S.
    destruct (sip_month_state p (state_before p n) (Z.of_nat n))
      as (E & _); [lia|].
    destruct (month_common p (state_before p n) (Z.of_nat n)) as (_ & P & _).
    rewrite E, P.
    pose proof (monthly_sip_return_rate_nonneg p Hr) as Hm.
    set (c := hybrid_sip_corpus (state_before p n)) in *.
    set (q := primary_cumulative_income (state_before p n)) in *.
    assert (Hc : 0 <= c) by lra.
    pose proof (Qmult_le_0_compat _ _ Hc Hm) as Hci.
    split; [lra|]. split; [lra|].
    intros Hz. unfold monthly_sip_return_rate. rewrite (IHeq Hz), Hz. field.
Qed.

End ClosedForms.

(** X6.  When the SIP phase has a non-negative length, the record of month
    [m] shows [SWP_Year = 0] during the SIP phase and
    [SWP_Year = (m - sip_duration_months) // 12 + 1] from the first SWP
    month on. *)
Theorem swp_year_closed_form (p : Params) (m : nat) :
  (0 <= sip_duration_months p)%Z ->
  (Z.of_nat m < total_months p)%Z ->
  exists r,
    nth_error (calculate_policy_outcomes p) m = Some r /\
    SWP_Year r
    = if (Z.of_nat m <? sip_duration_months p)%Z then 0%Z
      else ((Z.of_nat m - sip_duration_months p) / 12 + 1)%Z.
Proof.
  intros Hsip Hm. exists (record_of_month p m).
  split; [now apply outcomes_nth|].
  destruct (Z.ltb_spec (Z.of_nat m) (sip_duration_months p)) as [Hlt|Hge].
  - now destruct (sip_month_record p (state_before p m) _ Hlt)
      as (_ & _ & _ & _ & E & _).
  - destruct (swp_record_shows_schedule p m Hge) as (E & _).
    rewrite E. apply swp_schedule_closed_form. lia.
Qed.

Lemma swp_year_closed_form_witness :
  exists r,
    nth_error (calculate_policy_outcomes growing_params) 35 = Some r /\
    SWP_Year r = 2%Z.
Proof.
  apply (swp_year_closed_form growing_params 35).
  - vm_compute. congruence.
  - vm_compute. reflexivity.
Defined.

(** X9.  With a non-negative benefit and SIP rate, in a month of the SIP
    phase the SIP corpus shown by the record is at least the record's
    primary cumulative income, the benefits invested so far, and equal to it
    when the rate is zero. *)
Theorem sip_corpus_at_least_contributions (p : Params) (m : nat) :
  0 <= monthly_survival_benefit p ->
  0 <= sip_annual_return_rate p ->
  (Z.of_nat m < sip_duration_months p)%Z ->
  (Z.of_nat m < total_months p)%Z ->
  exists r,
    nth_error (calculate_policy_outcomes p) m = Some r /\
    Primary_CumulativeIncome r <= Hybrid_SIPCorpus_EOM r /\
    (sip_annual_return_rate p == 0 ->
     Hybrid_SIPCorpus_EOM r == Primary_CumulativeIncome r).
Proof.
  intros Hb Hr Hsip Hm. exists (record_of_month p m).
  split; [now apply outcomes_nth|].
  destruct (record_shows_state p m) as (_ & P & _ & E). rewrite P, E.
  destruct (sip_corpus_dominates_primary p (S m) Hb Hr) as (_ & Hle & Heq);
    [lia|].
  split; assumption.
Qed.

Lemma sip_corpus_at_least_contributions_witness :
  (exists r,
     nth_error (calculate_policy_outcomes growing_params) 11 = Some r /\
     Primary_CumulativeIncome r <= Hybrid_SIPCorpus_EOM r) /\
  (exists r,
     nth_error (calculate_policy_outcomes depleting_params) 11 = Some r /\
     Hybrid_SIPCorpus_EOM r == Primary_CumulativeIncome r).
Proof.
  split.
  - destruct (sip_corpus_at_least_contributions growing_params 11)
      as (r & Hr & Hle & _);
      [vm_compute; congruence | vm_compute; congruence
       | vm_compute; reflexivity | vm_compute; reflexivity |].
    exists r. split; [exact Hr | exact Hle].
  - destruct (sip_corpus_at_least_contributions depleting_params 11)
      as (r & Hr & _ & Heq);
      [vm_compute; congruence | vm_compute; congruence
       | vm_compute; reflexivity | vm_compute; reflexivity |].
    exists r. split; [exact Hr|]. apply Heq. reflexivity.
Defined.

(** ** The cumulative columns as running sums *)

Lemma Qsum_app (l : list Q) (x : Q) : Qsum (l ++ [x]) == Qsum l + x.
Proof.
  induction l as [|y l IH]; simpl.
  - ring.
  - rewrite IH. ring.
Qed.

Lemma firstn_seq_le (n a len : nat) :
  (n <= len)%nat -> firstn n (seq a len) = seq a n.
Proof.
  revert a len. induction n as [|n IH]; intros a len H; [reflexivity|].
  destruct len as [|len]; [lia|]. simpl. f_equal. apply IH. lia.
Qed.

Section Sums.

Variable p : Params.

(** The rows of the first [n] months. *)
Lemma outcomes_firstn (n : nat) :
  (Z.of_nat n <= total_months p)%Z ->
  firstn n (calculate_policy_outcomes p)
  = map (record_of_month p) (seq 0 n).
Proof.
  intros H. rewrite outcomes_trace, firstn_map, firstn_seq_le by lia.
  reflexivity.
Qed.

(** The monthly hybrid income of a record is the benefit plus the payout. *)
Lemma record_total_income (n : nat) :
  Hybrid_TotalMonthlyIncome (record_of_month p n)
  == monthly_survival_benefit p + Hybrid_SWPPayout (record_of_month p n).
Proof.
  destruct (Z_lt_le_dec (Z.of_nat n) (sip_duration_months p)) as [Hlt|Hge].
  - destruct (sip_month_record p (state_before p n) _ Hlt)
      as (_ & E2 & _ & E4 & _).
    fold (record_of_month p n) in E2, E4. rewrite E2, E4. ring.
  - destruct (swp_record_withdrawal p n Hge) as (E1 & _ & _ & E4).
    rewrite E1, E4. reflexivity.
Qed.

(** The hybrid total grows by the month's hybrid income. *)
Lemma hybrid_income_step (n : nat) :
  hybrid_cumulative_total_income (state_before p (S n))
  == hybrid_cumulative_total_income (state_before p n)
     + Hybrid_TotalMonthlyIncome (record_of_month p n).
Proof.
  rewrite state_before_S.
  destruct (Z_lt_le_dec (Z.of_nat n) (sip_duration_months p)) as [Hlt|Hge].
  - destruct (sip_month_state p (state_before p n) _ Hlt) as (_ & _ & E & _).
    destruct (sip_month_record p (state_before p n) _ Hlt)
      as (_ & _ & _ & E4 & _).
    fold (record_of_month p n) in E4. rewrite E, E4. reflexivity.
  - destruct (swp_month_state p (state_before p n) _ Hge) as (_ & _ & E & _).
    destruct (swp_record_withdrawal p n Hge) as (_ & _ & _ & E4).
    rewrite E, E4. reflexivity.
Qed.

Lemma hybrid_income_before (n : nat) :
  hybrid_cumulative_total_income (state_before p n)
  == Qsum (map Hybrid_TotalMonthlyIncome
             (map (record_of_month p) (seq 0 n))).
Proof.
  induction n as [|n IH].
  - rewrite state_before_0. reflexivity.
  - rewrite hybrid_income_step, IH, seq_S, !map_app.
    cbn [map Nat.add]. rewrite Qsum_app. reflexivity.
Qed.

(** The last value of a column of a non-empty frame is the value in the
    record of the last month. *)
Lemma final_value_last_month (col : MonthlyRecord -> Q) (n : nat) :
  total_months p = Z.of_nat (S n) ->
  final_value col (calculate_policy_outcomes p) = col (record_of_month p n).
Proof.
  intros H. unfold final_value.
  rewrite outcomes_trace, H, Nat2Z.id, seq_S, !map_app. simpl.
  apply last_last.
Qed.

Lemma outcomes_empty :
  (total_months p <= 0)%Z -> calculate_policy_outcomes p = [].
Proof.
  intros H. apply length_zero_iff_nil. rewrite outcomes_length. lia.
Qed.

End Sums.

(** X10.  In every record, each cumulative income is the sum of the monthly
    incomes of the records so far, and the hybrid monthly income is the
    benefit received plus the SWP payout. *)
Theorem cumulative_columns_are_running_sums (p : Params) (i : nat) :
  (Z.of_nat i < total_months p)%Z ->
  exists r,
    nth_error (calculate_policy_outcomes p) i = Some r /\
    Primary_CumulativeIncome r
    == Qsum (map Primary_MonthlyIncome
               (firstn (S i) (calculate_policy_outcomes p))) /\
    Hybrid_CumulativeTotalIncome r
    == Qsum (map Hybrid_TotalMonthlyIncome
               (firstn (S i) (calculate_policy_outcomes p))) /\
    Hybrid_TotalMonthlyIncome r
    == Hybrid_SurvivalBenefitReceived r + Hybrid_SWPPayout r.
Proof.
  intros Hi. exists (record_of_month p i).
  split; [now apply outcomes_nth|].
  destruct (record_shows_state p i) as (_ & P1 & H1 & _).
  rewrite outcomes_firstn by lia.
  split; [|split].
  - rewrite P1. clear P1 H1 Hi. induction i as [|i IH].
    + rewrite state_before_S, state_before_0.
      destruct (month_common p initial_state (Z.of_nat 0)) as (_ & E & _).
      destruct (month_calendar p initial_state (Z.of_nat 0))
        as (_ & _ & _ & Em & _).
      rewrite E. simpl. unfold record_of_month. rewrite state_before_0.
      simpl in Em |- *. rewrite Em. ring.
    + rewrite (seq_S (S i)), !map_app. cbn [map Nat.add].
      rewrite Qsum_app, <- IH.
      rewrite (state_before_S p (S i)).
      destruct (month_common p (state_before p (S i)) (Z.of_nat (S i)))
        as (_ & E & _).
      destruct (month_calendar p (state_before p (S i)) (Z.of_nat (S i)))
        as (_ & _ & _ & Em & _).
      fold (record_of_month p (S i)) in Em.
      rewrite E, Em. reflexivity.
  - rewrite H1. apply hybrid_income_before.
  - destruct (month_calendar p (state_before p i) (Z.of_nat i))
      as (_ & _ & _ & _ & Eb).
    fold (record_of_month p i) in Eb. rewrite Eb.
    apply record_total_income.
Qed.

Lemma cumulative_columns_are_running_sums_witness :
  exists r,
    nth_error (calculate_policy_outcomes growing_params) 20 = Some r /\
    Hybrid_CumulativeTotalIncome r
    == Qsum (map Hybrid_TotalMonthlyIncome
               (firstn 21 (calculate_policy_outcomes growing_params))) /\
    Hybrid_TotalMonthlyIncome r
    == Hybrid_SurvivalBenefitReceived r + Hybrid_SWPPayout r.
Proof.
  destruct (cumulative_columns_are_running_sums growing_params 20)
    as (r & Hr & _ & Hh & Ht); [vm_compute; reflexivity|].
  exists r. split; [exact Hr|]. split; [exact Hh | exact Ht].
Defined.

(** X12.  When [total_months <= 0] the frame is empty and the summary shows
    zeros: both final totals, the final corpus, the additional income, and
    the percentage, which takes its zero branch instead of dividing. *)
Theorem summary_of_empty_frame (p : Params) :
  (total_months p <= 0)%Z ->
  calculate_policy_outcomes p = [] /\
  final_primary_cumulative_income (calculate_policy_outcomes p) = 0 /\
  final_hybrid_cumulative_total_income (calculate_policy_outcomes p) = 0 /\
  final_hybrid_swp_corpus (calculate_policy_outcomes p) = 0 /\
  additional_cumulative_income_from_hybrid (calculate_policy_outcomes p)
  == 0 /\
  hybrid_advantage_percent (calculate_policy_outcomes p) = 0.
Proof.
  intros H. rewrite outcomes_empty by exact H.
  repeat split; reflexivity.
Qed.

Lemma summary_of_empty_frame_witness :
  calculate_policy_outcomes backwards_params = [] /\
  hybrid_advantage_percent (calculate_policy_outcomes backwards_params) = 0.
Proof.
  destruct (summary_of_empty_frame backwards_params)
    as (He & _ & _ & _ & _ & Hp); [vm_compute; congruence|].
  split; [exact He | exact Hp].
Defined.

(** X13.  For every valid parameter set the summary's primary total is
    positive, so the percentage is the additional income over the primary
    total times 100 and never the zero branch; the additional income, the
    percentage and the final corpus are not negative. *)
Theorem summary_of_valid_run (p : Params) :
  valid_params p ->
  0 < final_primary_cumulative_income (calculate_policy_outcomes p) /\
  hybrid_advantage_percent (calculate_policy_outcomes p)
  = additional_cumulative_income_from_hybrid (calculate_policy_outcomes p)
    / final_primary_cumulative_income (calculate_policy_outcomes p) * 100 /\
  0 <= additional_cumulative_income_from_hybrid (calculate_policy_outcomes p) /\
  0 <= hybrid_advantage_percent (calculate_policy_outcomes p) /\
  0 <= final_hybrid_swp_corpus (calculate_policy_outcomes p).
Proof.
  intros Hv. pose proof Hv as (Hage & Hb & _).
  set (df := calculate_policy_outcomes p).
  assert (Hn : total_months p = Z.of_nat (S (Z.to_nat (total_months p) - 1)))
    by (unfold total_months, policy_duration_years; lia).
  set (n := (Z.to_nat (total_months p) - 1)%nat) in *.
  destruct (record_shows_state p n) as (_ & P1 & H1 & _).
  assert (Ep : final_primary_cumulative_income df
               == monthly_survival_benefit p * inject_Z (total_months p)).
  { unfold final_primary_cumulative_income, df.
    rewrite (final_value_last_month p _ _ Hn), P1, primary_income_before, Hn.
    reflexivity. }
  assert (Hpos : 0 < final_primary_cumulative_income df).
  { rewrite Ep. apply Qmult_lt_0_compat; [exact Hb|].
    change 0 with (inject_Z 0). rewrite <- Zlt_Qlt. lia. }
  assert (Hadd : 0 <= additional_cumulative_income_from_hybrid df).
  { unfold additional_cumulative_income_from_hybrid,
      final_hybrid_cumulative_total_income, final_primary_cumulative_income,
      df.
    rewrite !(final_value_last_month p _ _ Hn), P1, H1.
    destruct (state_inv_before p (S n) Hv) as (_ & _ & _ & _ & Hle). lra. }
  assert (Hpc : hybrid_advantage_percent df
                = additional_cumulative_income_from_hybrid df
                  / final_primary_cumulative_income df * 100).
  { unfold hybrid_advantage_percent.
    destruct (Qeq_bool (final_primary_cumulative_income df) 0) eqn:E;
      [|reflexivity].
    apply Qeq_bool_iff in E. rewrite E in Hpos. lra. }
  split; [exact Hpos|]. split; [exact Hpc|].
  split; [exact Hadd|]. split.
  - rewrite Hpc. apply Qmult_le_0_compat; [|lra].
    apply Qle_shift_div_l; [exact Hpos|]. rewrite Qmult_0_l. exact Hadd.
  - unfold final_hybrid_swp_corpus, df.
    rewrite (final_value_last_month p _ _ Hn).
    apply record_swp_corpus_nonneg.
Qed.

Lemma summary_of_valid_run_witness :
  valid_params growing_params /\
  0 < final_primary_cumulative_income
        (calculate_policy_outcomes growing_params) /\
  0 <= hybrid_advantage_percent (calculate_policy_outcomes growing_params).
Proof.
  split; [exact growing_params_valid|].
  destruct (summary_of_valid_run growing_params growing_params_valid)
    as (Hpos & _ & _ & Hpc & _).
  split; [exact Hpos | exact Hpc].
Defined.

(** ** The slices of the frame that the script shows *)

Lemma filter_from_seq (k a n : nat) :
  filter (fun i => (k <=? i)%nat) (seq a n)
  = seq (Nat.max a k) (n - (k - a)).
Proof.
  revert a. induction n as [|n IH]; intros a.
  - reflexivity.
  - cbn [seq filter]. rewrite IH.
    destruct (Nat.leb_spec k a) as [Hle|Hgt].
    + replace (S n - (k - a))%nat with (S n) by lia.
      replace (n - (k - S a))%nat with n by lia.
      replace (Nat.max a k) with a by lia.
      replace (Nat.max (S a) k) with (S a) by lia.
      reflexivity.
    + replace (S n - (k - a))%nat with (n - (k - S a))%nat by lia.
      replace (Nat.max (S a) k) with (Nat.max a k) by lia.
      reflexivity.
Qed.

Section Slices.

Variable p : Params.

(** The SWP rows are the frame without its first [sip_duration_months]
    rows. *)
Lemma swp_phase_df_skipn :
  swp_phase_df p (calculate_policy_outcomes p)
  = skipn (Z.to_nat (sip_duration_months p)) (calculate_policy_outcomes p).
Proof.
  unfold swp_phase_df. rewrite outcomes_trace, filter_map_swap, skipn_map.
  f_equal. rewrite skipn_seq.
  rewrite (filter_ext _
             (fun i => (Z.to_nat (sip_duration_months p) <=? i)%nat)).
  - rewrite filter_from_seq. f_equal; lia.
  - intros n. rewrite month_index_of_record.
    fold (sip_duration_months p). rewrite Z.geb_leb.
    destruct (Z.leb_spec (sip_duration_months p) (Z.of_nat n)),
      (Nat.leb_spec (Z.to_nat (sip_duration_months p)) n);
      try reflexivity; lia.
Qed.

(** The rows of the first 24 months are rows of the first two policy
    years. *)
Lemma early_record_policy_year (n : nat) :
  (n < 24)%nat -> (1 <= PolicyYear (record_of_month p n) <= 2)%Z.
Proof.
  intros H.
  destruct (month_calendar p (state_before p n) (Z.of_nat n))
    as (_ & Ey & _).
  fold (record_of_month p n) in Ey. rewrite Ey.
  Z.div_mod_to_equations. lia.
Qed.

End Slices.

(** X14.  Whatever the parameters, the rows plotted for the SWP phase are
    the frame without its first [sip_duration_months] rows (all of it when
    that number is negative); there is none exactly when [total_months] is
    at most [max(0, sip_duration_months)]. *)
Theorem swp_phase_rows (p : Params) :
  swp_phase_df p (calculate_policy_outcomes p)
  = skipn (Z.to_nat (sip_duration_months p)) (calculate_policy_outcomes p) /\
  Z.of_nat (length (swp_phase_df p (calculate_policy_outcomes p)))
  = Z.max 0 (total_months p - Z.max 0 (sip_duration_months p)) /\
  (swp_phase_df p (calculate_policy_outcomes p) = [] <->
   (total_months p <= Z.max 0 (sip_duration_months p))%Z).
Proof.
  assert (Hlen :
    Z.of_nat (length (swp_phase_df p (calculate_policy_outcomes p)))
    = Z.max 0 (total_months p - Z.max 0 (sip_duration_months p))).
  { rewrite swp_phase_df_skipn, length_skipn, outcomes_length. lia. }
  split; [apply swp_phase_df_skipn|]. split; [exact Hlen|].
  rewrite <- length_zero_iff_nil. lia.
Qed.

(** X15.  Whatever the parameters, the short detailed table shows the first
    [min(24, total_months)] rows of the frame, in order, and each of them is
    a row of policy year 1 or 2. *)
Theorem detailed_table_first_two_years (p : Params) :
  length (detailed_table_head (calculate_policy_outcomes p))
  = Nat.min 24 (Z.to_nat (total_months p)) /\
  (forall i : nat,
     (i < 24)%nat ->
     nth_error (detailed_table_head (calculate_policy_outcomes p)) i
     = nth_error (calculate_policy_outcomes p) i) /\
  Forall (fun r => (1 <= PolicyYear r <= 2)%Z)
    (detailed_table_head (calculate_policy_outcomes p)).
Proof.
  unfold detailed_table_head. change (12 * 2)%nat with 24%nat.
  split; [now rewrite length_firstn, outcomes_length|].
  split.
  - intros i Hi. rewrite nth_error_firstn.
    destruct (Nat.ltb_spec i 24); [reflexivity | lia].
  - rewrite outcomes_trace, firstn_map. apply Forall_map, Forall_forall.
    intros n Hn. apply early_record_policy_year.
    destruct (Nat.le_gt_cases 24 (Z.to_nat (total_months p))) as [Hle|Hgt].
    + rewrite firstn_seq_le in Hn by exact Hle. apply in_seq in Hn. lia.
    + rewrite firstn_all2 in Hn by (rewrite length_seq; lia).
      apply in_seq in Hn. lia.
Qed.

(** X16.  With inputs in the ranges of the sidebar widgets the policy has at
    least 240 months and the SIP phase at least 60: the frame is not empty,
    the primary total is positive so the percentage never takes its zero
    branch, the short table has 24 rows, all of the SIP phase (benefit
    invested, no payout), and the SWP phase has no row exactly when the SIP
    duration is at least the policy duration. *)
Theorem sidebar_inputs_run (p : Params) :
  sidebar_inputs p ->
  (240 <= total_months p)%Z /\
  (60 <= sip_duration_months p)%Z /\
  calculate_policy_outcomes p <> [] /\
  0 < final_primary_cumulative_income (calculate_policy_outcomes p) /\
  hybrid_advantage_percent (calculate_policy_outcomes p)
  = additional_cumulative_income_from_hybrid (calculate_policy_outcomes p)
    / final_primary_cumulative_income (calculate_policy_outcomes p) * 100 /\
  length (detailed_table_head (calculate_policy_outcomes p)) = 24%nat /\
  Forall
    (fun r => Hybrid_SIPInvestment r = monthly_survival_benefit p /\
              Hybrid_SWPPayout r = 0 /\
              Hybrid_SWPCorpus_EOM r = 0)
    (detailed_table_head (calculate_policy_outcomes p)) /\
  (swp_phase_df p (calculate_policy_outcomes p) = [] <->
   (policy_duration_years p <= sip_duration_years p)%Z).
Proof.
  intros (Hage & (Hb & _) & Hend & Hsip & _).
  assert (Htot : (240 <= total_months p)%Z)
    by (unfold total_months, policy_duration_years; lia).
  assert (Hmon : (60 <= sip_duration_months p)%Z)
    by (unfold sip_duration_months; lia).
  split; [exact Htot|]. split; [exact Hmon|].
  set (df := calculate_policy_outcomes p).
  assert (Hn : total_months p = Z.of_nat (S (Z.to_nat (total_months p) - 1)))
    by lia.
  assert (Hpos : 0 < final_primary_cumulative_income df).
  { unfold final_primary_cumulative_income, df.
    rewrite (final_value_last_month p _ _ Hn).
    destruct (record_shows_state p (Z.to_nat (total_months p) - 1))
      as (_ & P1 & _).
    rewrite P1, primary_income_before, <- Hn.
    apply Qmult_lt_0_compat; [lra|].
    change 0 with (inject_Z 0). rewrite <- Zlt_Qlt. lia. }
  split.
  { intros He. apply length_zero_iff_nil in He. unfold df in He.
    rewrite outcomes_length in He. lia. }
  split; [exact Hpos|].
  split.
  { unfold hybrid_advantage_percent.
    destruct (Qeq_bool (final_primary_cumulative_income df) 0) eqn:E;
      [|reflexivity].
    apply Qeq_bool_iff in E. rewrite E in Hpos. lra. }
  split.
  { unfold detailed_table_head, df. change (12 * 2)%nat with 24%nat.
    rewrite length_firstn, outcomes_length. lia. }
  split.
  { unfold detailed_table_head, df. change (12 * 2)%nat with 24%nat.
    rewrite outcomes_trace, firstn_map, firstn_seq_le by lia.
    apply Forall_map, Forall_forall. intros n Hn'. apply in_seq in Hn'.
    destruct (sip_month_record p (state_before p n) (Z.of_nat n))
      as (E1 & E2 & E3 & _); [lia|].
    repeat split; assumption. }
  unfold df. rewrite <- length_zero_iff_nil, swp_phase_df_skipn,
    length_skipn, outcomes_length.
  unfold total_months, sip_duration_months in *. lia.
Qed.

Lemma default_params_in_sidebar_ranges : sidebar_inputs default_params.
Proof.
  unfold sidebar_inputs; simpl.
  repeat split; try lra; vm_compute; congruence.
Qed.

Lemma sidebar_inputs_run_witness :
  sidebar_inputs default_params /\
  calculate_policy_outcomes default_params <> [] /\
  length (detailed_table_head (calculate_policy_outcomes default_params))
  = 24%nat /\
  swp_phase_df default_params (calculate_policy_outcomes default_params)
  <> [].
Proof.
  split; [exact default_params_in_sidebar_ranges|].
  destruct (sidebar_inputs_run default_params
              default_params_in_sidebar_ranges)
    as (_ & _ & Hne & _ & _ & Hlen & _ & Hswp).
  split; [exact Hne|]. split; [exact Hlen|].
  intros He. apply Hswp in He. vm_compute in He. congruence.
Defined.

(** X17.  When the SWP phase is reached, its first row is the row of month
    [sip_duration_months], and the age of that row is
    [current_age + sip_duration_years], where the charts draw the
    "SWP Starts" line. *)
Theorem swp_start_line_at_first_swp_row (p : Params) :
  (0 <= sip_duration_months p < total_months p)%Z ->
  exists r,
    hd_error (swp_phase_df p (calculate_policy_outcomes p)) = Some r /\
    nth_error (calculate_policy_outcomes p)
      (Z.to_nat (sip_duration_months p)) = Some r /\
    MonthIndex r = sip_duration_months p /\
    Age r == inject_Z (swp_start_age p).
Proof.
  intros Hsip.
  exists (record_of_month p (Z.to_nat (sip_duration_months p))).
  assert (Hnth : nth_error (calculate_policy_outcomes p)
                   (Z.to_nat (sip_duration_months p))
                 = Some (record_of_month p (Z.to_nat (sip_duration_months p))))
    by (apply outcomes_nth; lia).
  split; [rewrite swp_phase_df_skipn, hd_error_skipn; exact Hnth|].
  split; [exact Hnth|].
  split; [rewrite month_index_of_record; lia|].
  destruct (month_calendar p
              (state_before p (Z.to_nat (sip_duration_months p)))
              (Z.of_nat (Z.to_nat (sip_duration_months p)))) as (Ea & _).
  fold (record_of_month p (Z.to_nat (sip_duration_months p))) in Ea.
  rewrite Ea, Z2Nat.id by lia.
  unfold swp_start_age, sip_duration_months.
  rewrite inject_Z_plus, inject_Z_mult. change (inject_Z 12) with 12.
  field.
Qed.

Lemma swp_start_line_at_first_swp_row_witness :
  exists r,
    hd_error (swp_phase_df growing_params
                (calculate_policy_outcomes growing_params)) = Some r /\
    MonthIndex r = 12%Z /\
    Age r == 41.
Proof.
  destruct (swp_start_line_at_first_swp_row growing_params)
    as (r & Hh & _ & Hm & Ha); [vm_compute; split; congruence|].
  exists r. split; [exact Hh|]. split; [exact Hm|].
  rewrite Ha. reflexivity.
Defined.

(** ** Runs without one of the phases, and the first SWP month *)

Section Phases.

Variable p : Params.

(** With a negative SIP duration no month invests or transfers anything. *)
Lemma negative_sip_state (n : nat) :
  (sip_duration_months p < 0)%Z ->
  hybrid_sip_corpus (state_before p n) = 0 /\
  hybrid_swp_corpus (state_before p n) == 0 /\
  current_target_swp_monthly_payout (state_before p n) == 0.
Proof.
  intros Hneg. induction n as [|n (IH1 & IH2 & IH3)].
  - rewrite state_before_0. simpl. repeat split; reflexivity.
  - destruct (depleted_month p n) as (D & _); [lia | exact IH2 |].
    split; [|split; [exact D|]]; rewrite state_before_S;
      destruct (swp_month_state p (state_before p n) (Z.of_nat n))
        as (E1 & _ & _ & _ & _ & E6); try lia.
    + rewrite E1. exact IH1.
    + rewrite E6, swp_schedule_later by lia.
      destruct (escalation_due p (Z.of_nat n)); [|exact IH3].
      cbn [swp_escalation current_target_swp_monthly_payout].
      rewrite scheduled_is_target, IH3. ring.
Qed.

(** During the SIP phase the hybrid total is the primary total. *)
Lemma sip_phase_incomes_equal (n : nat) :
  (Z.of_nat n <= sip_duration_months p)%Z ->
  hybrid_cumulative_total_income (state_before p n)
  == primary_cumulative_income (state_before p n).
Proof.
  induction n as [|n IH]; intros Hn.
  - rewrite state_before_0. reflexivity.
  - rewrite state_before_S.
    destruct (sip_month_state p (state_before p n) (Z.of_nat n))
      as (_ & _ & E & _); [lia|].
    destruct (month_common p (state_before p n) (Z.of_nat n)) as (_ & P & _).
    rewrite E, P, IH by lia. reflexivity.
Qed.

(** A target below the grown corpus is paid in full and leaves the rest. *)
Lemma swp_withdrawal_partial (s : LoopState) :
  0 < hybrid_swp_corpus s ->
  current_target_swp_monthly_payout s
  < hybrid_swp_corpus s + hybrid_swp_corpus s * monthly_corpus_growth_rate p ->
  snd (swp_withdrawal p s) = current_target_swp_monthly_payout s /\
  hybrid_swp_corpus (fst (swp_withdrawal p s))
  = hybrid_swp_corpus s + hybrid_swp_corpus s * monthly_corpus_growth_rate p
    - current_target_swp_monthly_payout s.
Proof.
  intros Hpos Hlt. unfold swp_withdrawal.
  destruct (Qle_bool (hybrid_swp_corpus s) 0) eqn:E0.
  { apply Qle_bool_true in E0. lra. }
  destruct (Qle_bool _ (current_target_swp_monthly_payout s)) eqn:E.
  { apply Qle_bool_true in E. lra. }
  simpl. destruct (Qlt_bool _ 0) eqn:Ec; simpl.
  - apply Qlt_bool_true in Ec. lra.
  - split; reflexivity.
Qed.

End Phases.

(** X18.  With a negative SIP duration every month runs the SWP branch but
    the transfer never happens: every record shows no investment, an empty
    SIP corpus, no payout, no SWP corpus, a zero target, and a hybrid income
    of the benefit alone. *)
Theorem negative_sip_invests_nothing (p : Params) :
  (sip_duration_months p < 0)%Z ->
  Forall
    (fun r => Hybrid_SIPInvestment r = 0 /\
              Hybrid_SIPCorpus_EOM r = 0 /\
              Hybrid_SWPPayout r == 0 /\
              Hybrid_SWPCorpus_EOM r == 0 /\
              Target_SWP_Payout r == 0 /\
              Hybrid_TotalMonthlyIncome r == monthly_survival_benefit p)
    (calculate_policy_outcomes p).
Proof.
  intros Hneg. rewrite outcomes_trace. apply Forall_map, Forall_forall.
  intros n _.
  assert (Hge : (sip_duration_months p <= Z.of_nat n)%Z) by lia.
  destruct (negative_sip_state p n Hneg) as (_ & S2 & _).
  destruct (negative_sip_state p (S n) Hneg) as (T1 & _ & T3).
  destruct (depleted_month p n) as (_ & D2 & D3); [lia | exact S2 |].
  destruct (swp_month_record p (state_before p n) _ Hge) as (R1 & _).
  fold (record_of_month p n) in R1.
  destruct (record_shows_state p n) as (_ & _ & _ & E).
  destruct (swp_record_shows_schedule p n Hge) as (_ & Et & _).
  split; [exact R1|]. split; [rewrite E; exact T1|].
  split; [exact D3|]. split; [exact D2|].
  split; [rewrite Et; exact T3|].
  rewrite record_total_income, D3. ring.
Qed.

Lemma negative_sip_invests_nothing_witness :
  Forall
    (fun r => Hybrid_SIPInvestment r = 0 /\
              Hybrid_SIPCorpus_EOM r = 0 /\
              Hybrid_SWPPayout r == 0 /\
              Hybrid_SWPCorpus_EOM r == 0 /\
              Target_SWP_Payout r == 0 /\
              Hybrid_TotalMonthlyIncome r == 10000)
    (calculate_policy_outcomes negative_sip_params).
Proof.
  apply (negative_sip_invests_nothing negative_sip_params).
  vm_compute. reflexivity.
Defined.

(** X19.  When the SIP phase is at least as long as the policy, the SWP
    phase is never reached: every record shows the benefit invested, no
    payout, no SWP corpus, [SWP_Year = 0], and a hybrid cumulative income
    equal to the primary one. *)
Theorem sip_only_run (p : Params) :
  (total_months p <= sip_duration_months p)%Z ->
  Forall
    (fun r => Hybrid_SIPInvestment r = monthly_survival_benefit p /\
              Hybrid_SWPPayout r = 0 /\
              Hybrid_SWPCorpus_EOM r = 0 /\
              SWP_Year r = 0%Z /\
              Hybrid_CumulativeTotalIncome r == Primary_CumulativeIncome r)
    (calculate_policy_outcomes p).
Proof.
  intros Hlong. rewrite outcomes_trace. apply Forall_map, Forall_forall.
  intros n Hn. apply in_seq in Hn.
  destruct (sip_month_record p (state_before p n) (Z.of_nat n))
    as (E1 & E2 & E3 & _ & E5 & _); [lia|].
  destruct (record_shows_state p n) as (_ & P1 & H1 & _).
  split; [exact E1|]. split; [exact E2|]. split; [exact E3|].
  split; [exact E5|].
  rewrite P1, H1. apply sip_phase_incomes_equal. lia.
Qed.

Lemma sip_only_run_witness :
  Forall
    (fun r => Hybrid_SIPInvestment r = 10000 /\
              Hybrid_SWPPayout r = 0 /\
              Hybrid_SWPCorpus_EOM r = 0 /\
              SWP_Year r = 0%Z /\
              Hybrid_CumulativeTotalIncome r == Primary_CumulativeIncome r)
    (calculate_policy_outcomes overlong_sip_params).
Proof.
  apply (sip_only_run overlong_sip_params).
  vm_compute. congruence.
Defined.

(** X21.  For every valid parameter set with a SIP phase of at least one
    month that ends before the policy, the transferred SIP corpus is
    positive; if the first monthly target, that corpus times
    [swp_initial_annual_withdrawal_rate] over 12, is below the corpus grown
    by one month, the first SWP month pays that target in full and leaves
    the grown corpus minus the target, which is positive. *)
Theorem first_swp_month_pays_in_full (p : Params) :
  valid_params p ->
  (0 < sip_duration_months p < total_months p)%Z ->
  final_sip_corpus p * swp_initial_annual_withdrawal_rate p / 12
  < final_sip_corpus p
    + final_sip_corpus p * (corpus_annual_growth_rate p / 12) ->
  exists r,
    nth_error (calculate_policy_outcomes p)
      (Z.to_nat (sip_duration_months p)) = Some r /\
    0 < final_sip_corpus p /\
    Hybrid_SWPPayout r
    = final_sip_corpus p * swp_initial_annual_withdrawal_rate p / 12 /\
    Hybrid_SWPCorpus_EOM r
    = final_sip_corpus p
      + final_sip_corpus p * (corpus_annual_growth_rate p / 12)
      - final_sip_corpus p * swp_initial_annual_withdrawal_rate p / 12 /\
    0 < Hybrid_SWPCorpus_EOM r.
Proof.
  intros Hv Hsip Hlt. pose proof Hv as (_ & Hb & Hr & _).
  exists (record_of_month p (Z.to_nat (sip_duration_months p))).
  split; [apply outcomes_nth; lia|].
  assert (Hfinal : 0 < final_sip_corpus p).
  { destruct (sip_corpus_dominates_primary p
                (Z.to_nat (sip_duration_months p)))
      as (_ & Hle & _); [lra | exact Hr | lia |].
    fold (final_sip_corpus p) in Hle.
    apply Qlt_le_trans with (2 := Hle).
    rewrite primary_income_before.
    apply Qmult_lt_0_compat; [exact Hb|].
    change 0 with (inject_Z 0). rewrite <- Zlt_Qlt. lia. }
  destruct (first_swp_month_record p) as (_ & _ & _ & Ep & Ec); [lia|].
  destruct (swp_withdrawal_partial p
              (swp_first_month p
                 (state_before p (Z.to_nat (sip_duration_months p)))))
    as (E1 & E2).
  { exact Hfinal. }
  { exact Hlt. }
  rewrite Ep, Ec, transition_state_eq, E1, E2.
  split; [exact Hfinal|]. split; [reflexivity|]. split; [reflexivity|].
  cbn [swp_first_month hybrid_swp_corpus current_target_swp_monthly_payout].
  unfold monthly_corpus_growth_rate. fold (final_sip_corpus p). lra.
Qed.

Lemma first_swp_month_pays_in_full_witness :
  valid_params growing_params /\
  exists r,
    nth_error (calculate_policy_outcomes growing_params) 12 = Some r /\
    0 < final_sip_corpus growing_params /\
    Hybrid_SWPPayout r = final_sip_corpus growing_params * (6 # 100) / 12 /\
    0 < Hybrid_SWPCorpus_EOM r.
Proof.
  split; [exact growing_params_valid|].
  assert (H0 : 0 < final_sip_corpus growing_params).
  { destruct (sip_corpus_dominates_primary growing_params 12)
      as (_ & Hle & _);
      [vm_compute; congruence | vm_compute; congruence
       | vm_compute; congruence |].
    apply Qlt_le_trans with (2 := Hle).
    rewrite primary_income_before. vm_compute. reflexivity. }
  destruct (first_swp_month_pays_in_full growing_params growing_params_valid)
    as (r & Hr & Hf & Hp & _ & Hc).
  - vm_compute. split; reflexivity.
  - change (swp_initial_annual_withdrawal_rate growing_params)
      with (6 # 100).
    change (corpus_annual_growth_rate growing_params) with (12 # 100).
    generalize dependent (final_sip_corpus growing_params).
    intros c Hc.
    assert (Et : c * (6 # 100) / 12 == c * (5 # 1000)) by field.
    assert (Eg : c * ((12 # 100) / 12) == c * (1 # 100)) by field.
    rewrite Et, Eg. lra.
  - exists r. split; [exact Hr|]. split; [exact Hf|].
    split; [exact Hp | exact Hc].
Defined.

(** * The run on binary64 numbers *)

Module Binary64Facts.

Import Binary64.
Import PrimFloat.
#[local] Set Warnings "-inexact-float".
Local Open Scope float_scope.

(** ** The loop as a trace *)

Lemma run_loop_app_b64 (p : Params) (l1 l2 : list Z) acc :
  run_loop p (l1 ++ l2) acc = run_loop p l2 (run_loop p l1 acc).
Proof. unfold run_loop. apply fold_left_app. Qed.

Lemma state_before_S_b64 (p : Params) (n : nat) :
  state_before p (S n) = fst (loop_body p (state_before p n) (Z.of_nat n)).
Proof.
  unfold state_before at 1. rewrite range_succ, run_loop_app_b64.
  fold (state_before p n).
  destruct (run_loop p (range (Z.of_nat n)) (initial_state, []))
    as [s rows] eqn:E.
  assert (Es : state_before p n = s) by (unfold state_before; now rewrite E).
  rewrite Es. simpl.
  destruct (loop_body p s (Z.of_nat n)); reflexivity.
Qed.

Lemma run_loop_trace_b64 (p : Params) (n : nat) :
  run_loop p (range (Z.of_nat n)) (initial_state, [])
  = (state_before p n, map (record_of_month p) (seq 0 n)).
Proof.
  induction n as [|n IH].
  - reflexivity.
  - rewrite state_before_S_b64, range_succ, run_loop_app_b64, IH, seq_S,
      map_app.
    simpl. unfold record_of_month.
    destruct (loop_body p (state_before p n) (Z.of_nat n)); reflexivity.
Qed.

Lemma outcomes_trace_b64 (p : Params) :
  calculate_policy_outcomes p
  = map (record_of_month p) (seq 0 (Z.to_nat (total_months p))).
Proof.
  unfold calculate_policy_outcomes.
  destruct (Z_le_gt_dec 0 (total_months p)) as [Hle|Hgt].
  - rewrite <- (Z2Nat.id (total_months p)) at 1 by exact Hle.
    rewrite run_loop_trace_b64. reflexivity.
  - unfold range. destruct (total_months p); try lia; reflexivity.
Qed.

Lemma outcomes_length_b64 (p : Params) :
  length (calculate_policy_outcomes p) = Z.to_nat (total_months p).
Proof. now rewrite outcomes_trace_b64, length_map, length_seq. Qed.

Lemma outcomes_nth_b64 (p : Params) (n : nat) :
  (Z.of_nat n < total_months p)%Z ->
  nth_error (calculate_policy_outcomes p) n = Some (record_of_month p n).
Proof.
  intros H. rewrite outcomes_trace_b64, nth_error_map, nth_error_seq.
  assert (Hn : (n <? Z.to_nat (total_months p))%nat = true)
    by (apply Nat.ltb_lt; lia).
  rewrite Hn. reflexivity.
Qed.

(** ** One month *)

(** The primary total of a month, in either phase, and the columns that
    show the state the month leaves. *)
Lemma month_common_b64 (p : Params) (s : LoopState) (m : Z) :
  primary_cumulative_income (fst (loop_body p s m))
  = primary_cumulative_income s + monthly_survival_benefit p /\
  Primary_CumulativeIncome (snd (loop_body p s m))
  = primary_cumulative_income (fst (loop_body p s m)) /\
  Hybrid_SIPCorpus_EOM (snd (loop_body p s m))
  = hybrid_sip_corpus (fst (loop_body p s m)).
Proof.
  unfold loop_body.
  destruct (hybrid_month p s m) as [s1 [[[inv pay] eom] tot]].
  simpl. repeat split; reflexivity.
Qed.

(** A month of the SIP phase. *)
Lemma sip_month_b64 (p : Params) (s : LoopState) (m : Z) :
  (m < sip_duration_months p)%Z ->
  hybrid_sip_corpus (fst (loop_body p s m))
  = hybrid_sip_corpus s
    + hybrid_sip_corpus s * (sip_annual_return_rate p / 12)
    + monthly_survival_benefit p /\
  Hybrid_SWPPayout (snd (loop_body p s m)) = 0 /\
  Hybrid_SWPCorpus_EOM (snd (loop_body p s m)) = 0 /\
  Hybrid_TotalMonthlyIncome (snd (loop_body p s m))
  = monthly_survival_benefit p.
Proof.
  intros H. unfold loop_body, hybrid_month.
  rewrite (proj2 (Z.ltb_lt _ _) H). simpl. repeat split; reflexivity.
Qed.

(** The primary total is the benefit added once per elapsed month. *)
Lemma primary_income_before_b64 (p : Params) (n : nat) :
  primary_cumulative_income (state_before p n)
  = repeated_add (monthly_survival_benefit p) n.
Proof.
  induction n as [|n IH].
  - reflexivity.
  - rewrite state_before_S_b64.
    destruct (month_common_b64 p (state_before p n) (Z.of_nat n)) as (E & _).
    rewrite E, IH. reflexivity.
Qed.

(** When no addition rounds away from the product, the repeated sum is the
    product. *)
Lemma repeated_add_exact (b : float) (n : nat) :
  exact_multiples b n = true ->
  repeated_add b (S n) = b * float_of_Z (Z.of_nat n + 1).
Proof.
  unfold exact_multiples. intros H.
  apply andb_true_iff in H. destruct H as (H0 & Hall).
  apply FloatAxioms.Leibniz.eqb_spec in H0.
  induction n as [|n IH].
  - exact H0.
  - rewrite seq_S, forallb_app in Hall.
    apply andb_true_iff in Hall. destruct Hall as (Hinit & Hlast).
    cbn [forallb Nat.add] in Hlast. rewrite andb_true_r in Hlast.
    apply FloatAxioms.Leibniz.eqb_spec in Hlast.
    change (repeated_add b (S (S n))) with (repeated_add b (S n) + b).
    rewrite (IH Hinit).
    replace (Z.of_nat n + 1)%Z with (Z.of_nat (S n)) by lia.
    exact Hlast.
Qed.

Lemma dime_params_valid : valid_params dime_params.
Proof.
  unfold valid_params. repeat split; try reflexivity; vm_compute; congruence.
Qed.

Lemma default_params_valid_b64 : valid_params default_params.
Proof.
  unfold valid_params. repeat split; try reflexivity; vm_compute; congruence.
Qed.

(** ** The claims that depend on the rounding *)

(** C1, the claim as stated fails: with a monthly benefit of [0.1], a valid
    parameter set, the record at index 5 has [Primary_CumulativeIncome]
    [0.6], the sum of six additions, while [0.1 * 6] is
    [0.6000000000000001]. *)
Lemma primary_income_not_benefit_times_months :
  valid_params dime_params /\
  exists r,
    nth_error (calculate_policy_outcomes dime_params) 5 = Some r /\
    Primary_CumulativeIncome r = 0.6 /\
    monthly_survival_benefit dime_params * float_of_Z (5 + 1)
    = 0.6000000000000001 /\
    (Primary_CumulativeIncome r
     =? monthly_survival_benefit dime_params * float_of_Z (5 + 1)) = false.
Proof.
  split; [exact dime_params_valid|].
  exists (record_of_month dime_params 5).
  split; [apply outcomes_nth_b64; vm_compute; reflexivity|].
  split; [vm_compute; reflexivity|].
  split; vm_compute; reflexivity.
Qed.

(** C1, amended.  For every valid parameter set the returned sequence has
    [total_months] records, and the record at index [i] exists and has as
    [Primary_CumulativeIncome] the binary64 sum of [i + 1] additions of
    [monthly_survival_benefit] to [0.0]; that sum is
    [monthly_survival_benefit * (i + 1)] when none of these additions rounds
    away from the product. *)
Theorem outcomes_length_and_primary_running_sum (p : Params) :
  valid_params p ->
  Z.of_nat (length (calculate_policy_outcomes p)) = total_months p /\
  forall i : nat,
    (Z.of_nat i < total_months p)%Z ->
    exists r,
      nth_error (calculate_policy_outcomes p) i = Some r /\
      Primary_CumulativeIncome r
      = repeated_add (monthly_survival_benefit p) (S i) /\
      (exact_multiples (monthly_survival_benefit p) i = true ->
       Primary_CumulativeIncome r
       = monthly_survival_benefit p * float_of_Z (Z.of_nat i + 1)).
Proof.
  intros (Hage & _). split.
  - rewrite outcomes_length_b64.
    unfold total_months, policy_duration_years in *. lia.
  - intros i Hi. exists (record_of_month p i).
    split; [now apply outcomes_nth_b64|].
    assert (E : Primary_CumulativeIncome (record_of_month p i)
                = repeated_add (monthly_survival_benefit p) (S i)).
    { unfold record_of_month.
      destruct (month_common_b64 p (state_before p i) (Z.of_nat i))
        as (E1 & E2 & _).
      rewrite E2, E1, primary_income_before_b64. reflexivity. }
    split; [exact E|].
    intros Hexact. rewrite E. now apply repeated_add_exact.
Qed.

Lemma outcomes_length_and_primary_running_sum_witness :
  valid_params default_params /\
  Z.of_nat (length (calculate_policy_outcomes default_params)) = 540%Z /\
  exists r,
    nth_error (calculate_policy_outcomes default_params) 539 = Some r /\
    Primary_CumulativeIncome r = 5400000.
Proof.
  split; [exact default_params_valid_b64|].
  destruct (outcomes_length_and_primary_running_sum default_params
              default_params_valid_b64) as [Hlen Hrec].
  split; [exact Hlen|].
  destruct (Hrec 539%nat) as (r & Hr & _ & Hv); [vm_compute; reflexivity|].
  exists r. split; [exact Hr|].
  rewrite Hv by (vm_compute; reflexivity).
  vm_compute. reflexivity.
Defined.

(** C8, the claim as stated fails: in the run of [growing_params] the SIP
    corpus of month 3 is [40604.009999999995], while the corpus of month 2
    times [1 + 0.12 / 12] plus the benefit is [40604.01]. *)
Lemma sip_corpus_not_regrouped :
  (3 < sip_duration_months growing_params)%Z /\
  exists r2 r3,
    nth_error (calculate_policy_outcomes growing_params) 2 = Some r2 /\
    nth_error (calculate_policy_outcomes growing_params) 3 = Some r3 /\
    Hybrid_SIPCorpus_EOM r3 = 40604.009999999995 /\
    Hybrid_SIPCorpus_EOM r2
    * (1 + sip_annual_return_rate growing_params / 12)
    + monthly_survival_benefit growing_params
    = 40604.01 /\
    (Hybrid_SIPCorpus_EOM r3
     =? Hybrid_SIPCorpus_EOM r2
        * (1 + sip_annual_return_rate growing_params / 12)
        + monthly_survival_benefit growing_params) = false.
Proof.
  split; [vm_compute; reflexivity|].
  exists (record_of_month growing_params 2), (record_of_month growing_params 3).
  split; [apply outcomes_nth_b64; vm_compute; reflexivity|].
  split; [apply outcomes_nth_b64; vm_compute; reflexivity|].
  split; [vm_compute; reflexivity|].
  split; vm_compute; reflexivity.
Qed.

(** C8, amended.  In every month [m < sip_duration_months] the SIP corpus
    becomes, in binary64,
    [(balance + balance * (sip_annual_return_rate / 12))
     + monthly_survival_benefit]:
    the interest on the old balance is added first, then the benefit, each
    addition rounded; [balance] is the corpus at the end of the previous
    month, the value the previous record shows, [0.0] for the first month.
    The record of the month shows the new corpus, a payout of 0, an SWP
    corpus of 0 and a hybrid income of the benefit alone. *)
Theorem sip_phase_month_rounded (p : Params) (m : nat) :
  (Z.of_nat m < sip_duration_months p)%Z ->
  (Z.of_nat m < total_months p)%Z ->
  exists r,
    nth_error (calculate_policy_outcomes p) m = Some r /\
    Hybrid_SIPCorpus_EOM r
    = hybrid_sip_corpus (state_before p m)
      + hybrid_sip_corpus (state_before p m) * (sip_annual_return_rate p / 12)
      + monthly_survival_benefit p /\
    Hybrid_SIPCorpus_EOM r = hybrid_sip_corpus (state_before p (S m)) /\
    (forall k, m = S k ->
       exists r', nth_error (calculate_policy_outcomes p) k = Some r' /\
         Hybrid_SIPCorpus_EOM r' = hybrid_sip_corpus (state_before p m)) /\
    (m = 0%nat -> hybrid_sip_corpus (state_before p m) = 0) /\
    Hybrid_SWPPayout r = 0 /\
    Hybrid_SWPCorpus_EOM r = 0 /\
    Hybrid_TotalMonthlyIncome r = monthly_survival_benefit p.
Proof.
  intros Hsip Htot. exists (record_of_month p m).
  split; [now apply outcomes_nth_b64|].
  unfold record_of_month.
  destruct (month_common_b64 p (state_before p m) (Z.of_nat m))
    as (_ & _ & E3).
  destruct (sip_month_b64 p (state_before p m) (Z.of_nat m) Hsip)
    as (S1 & S2 & S3 & S4).
  split; [rewrite E3; exact S1|].
  split; [rewrite state_before_S_b64; exact E3|].
  split.
  { intros k ->. exists (record_of_month p k).
    split; [apply outcomes_nth_b64; lia|].
    unfold record_of_month. rewrite (state_before_S_b64 p k).
    now destruct (month_common_b64 p (state_before p k) (Z.of_nat k))
      as (_ & _ & E). }
  split; [intros ->; reflexivity|].
  split; [exact S2|]. split; [exact S3 | exact S4].
Qed.

Lemma sip_phase_month_rounded_witness :
  exists r l,
    nth_error (calculate_policy_outcomes growing_params) 3 = Some r /\
    nth_error (calculate_policy_outcomes growing_params) 2 = Some l /\
    Hybrid_SIPCorpus_EOM r
    = Hybrid_SIPCorpus_EOM l + Hybrid_SIPCorpus_EOM l * (0.12 / 12) + 10000 /\
    Hybrid_SIPCorpus_EOM r = 40604.009999999995 /\
    Hybrid_SWPPayout r = 0 /\
    Hybrid_SWPCorpus_EOM r = 0 /\
    Hybrid_TotalMonthlyIncome r = 10000.
Proof.
  destruct (sip_phase_month_rounded growing_params 3)
    as (r & Hr & Hstep & _ & Hprev & _ & H1 & H2 & H3);
    [vm_compute; reflexivity | vm_compute; reflexivity |].
  destruct (Hprev 2%nat eq_refl) as (l & Hl & El).
  exists r, l. split; [exact Hr|]. split; [exact Hl|].
  split; [rewrite El; exact Hstep|].
  split; [rewrite Hstep; vm_compute; reflexivity|].
  split; [exact H1|]. split; [exact H2 | exact H3].
Defined.

End Binary64Facts.
